(** * StockFlow API: order placement and stock adjustment

    A shallow embedding of the transaction engine of the StockFlow backend
    ([controllers/orderController.ts], [controllers/inventoryController.ts],
    [controllers/productController.ts], [utils/socket.ts]) and the proofs of
    its stock, pricing and notification properties.

    Conventions of the embedding.
    - The persistent store reached through the Prisma client is a record of
      tables ([Db]); a table keyed by its [id] column is a [gmap string _].
      The append-only adjustment log is a list, oldest row first.
    - A handler is a function from the request and the current [World]
      (store and socket handle) to the HTTP response and the next [World].
    - [prisma.$transaction] runs its callback on the store and either
      commits the resulting store or, when a statement throws, leaves the
      store as it was.
    - Integers ([quantity], [stockLevel]) are [Z], which is what binary64
      holds for them while sums stay within 2^53 in absolute value;
      [number_add] gives the sums beyond. Prices are JavaScript
      numbers; the handlers only add and multiply them, so the embedding is
      generic in the arithmetic ([JsNumber]) and every statement about
      amounts holds for binary64 as well as for exact arithmetic.
    - Columns filled in by the store and never read by the handlers
      ([createdAt], the ids of adjustment and order-item rows), the
      timestamps of events and the [user] relation rows are left out. *)

From stdpp Require Import gmap strings list fin_maps stringmap.
From Stdlib Require Import ZArith Lia Ascii.

Open Scope Z_scope.

(** ** Numbers *)

(** The arithmetic of [number] that the controllers use on prices:
    the literal [0], [+], [*], the embedding of an integer quantity, and
    zod's [.positive()] test. *)
Class JsNumber (N : Type) := {
  num_zero : N;
  num_add : N → N → N;
  num_mul : N → N → N;
  num_of_int : Z → N;
  num_positive : N → bool
}.

(** Exact integer arithmetic (amounts in the smallest currency unit). *)
#[export] Instance Z_JsNumber : JsNumber Z := {|
  num_zero := 0;
  num_add := Z.add;
  num_mul := Z.mul;
  num_of_int := λ z, z;
  num_positive := λ z, bool_decide (0 < z)
|}.

(** ** Insertion-ordered maps

    [new Map<string, number>()]: iteration follows insertion order and
    [set] on a present key keeps the key's position. *)

Fixpoint Map_get (k : string) (m : list (string * Z)) : option Z :=
  match m with
  | [] => None
  | (k', v) :: rest => if decide (k' = k) then Some v else Map_get k rest
  end.

Fixpoint Map_set (k : string) (v : Z) (m : list (string * Z)) : list (string * Z) :=
  match m with
  | [] => [(k, v)]
  | (k', v') :: rest =>
      if decide (k' = k) then (k, v) :: rest else (k', v') :: Map_set k v rest
  end.

(** [[...new Set(xs)]]: the distinct elements in order of first occurrence. *)
Fixpoint Set_spread_go (seen : list string) (xs : list string) : list string :=
  match xs with
  | [] => []
  | x :: rest =>
      if decide (x ∈ seen) then Set_spread_go seen rest
      else x :: Set_spread_go (x :: seen) rest
  end.

Definition Set_spread (xs : list string) : list string := Set_spread_go [] xs.

(** ** Data model *)

Inductive OrderStatus := PENDING | COMPLETED | CANCELLED.

Inductive AdjustmentType := IN | OUT.

#[export] Instance OrderStatus_eq_dec : EqDecision OrderStatus.
Proof. solve_decision. Defined.

#[export] Instance AdjustmentType_eq_dec : EqDecision AdjustmentType.
Proof. solve_decision. Defined.

Record InventoryAdjustment := {
  adj_productId : string;
  adj_userId : string;
  adj_quantity : Z;
  adj_type : AdjustmentType;
  adj_reason : option string
}.

Section Model.
Context {N : Type} `{JsNumber N}.

(** A row of the product table (the [id] column is the table key). *)
Record Product := {
  name : string;
  sku : string;
  description : option string;
  price : N;
  stockLevel : Z;
  lowStockThreshold : Z
}.

Record OrderItem := {
  oi_productId : string;
  oi_quantity : Z;
  priceAtTime : N
}.

(** An order row together with the order-item rows it owns. *)
Record Order := {
  userId : string;
  status : OrderStatus;
  totalAmount : N;
  orderItems : list OrderItem
}.

Record Db := {
  products : gmap string Product;
  orders : gmap string Order;
  adjustments : list InventoryAdjustment
}.

(** ** Socket notifier ([utils/socket.ts]) *)

(** The events [stock:updated] and [order:created] with the payload fields
    the handlers read from the request and the store rows. *)
Inductive Event :=
| StockUpdated (productId productName : string) (oldStock newStock change : Z)
    (type : AdjustmentType) (reason : option string)
| OrderCreated (orderId userId : string) (total : N) (itemCount : nat)
    (st : OrderStatus).

(** The module-level [let io: SocketServer]: [None] until
    [initializeSocket] has run, afterwards the server with the events it has
    broadcast so far (latest last). *)
Definition Socket : Type := option (list Event).

Record World := {
  db : Db;
  io : Socket
}.

(** [getIO]: throws ([None]) when the server is not initialised. *)
Definition getIO (s : Socket) : option (list Event) := s.

(** [try { const io = getIO(); io.emit(ev, payload) } catch { console.error }]:
    the socket handle after the guarded emission. *)
Definition try_emit (ev : Event) (s : Socket) : Socket :=
  match getIO s with
  | Some sent => Some (sent ++ [ev])
  | None => s
  end.

(** ** HTTP requests and responses *)

Record OrderLine := {
  productId : string;
  quantity : Z
}.

(** The JSON body of [POST /api/orders], already typed. *)
Record OrderBody := {
  items : list OrderLine;
  ob_status : option OrderStatus
}.

Record AdjustmentBody := {
  ab_productId : string;
  ab_quantity : Z;
  ab_type : AdjustmentType;
  ab_reason : option string
}.

Record StatusBody := {
  sb_status : OrderStatus
}.

Record ProductPatch := {
  pp_name : option string;
  pp_sku : option string;
  pp_description : option string;
  pp_price : option N;
  pp_stockLevel : option Z;
  pp_lowStockThreshold : option Z
}.

(** A request after the authorization gate: [req.user!.id], [req.params.id]
    where the route has one, and [req.body]. *)
Record Request (B : Type) := {
  user : string;
  param_id : string;
  body : B
}.

(** The [product: { select: { name, sku, price } }] projection ([price] is
    selected by [createOrder] and [getOrderById] only). *)
Record ProductInfo := {
  pi_name : string;
  pi_sku : string;
  pi_price : option N
}.

(** An order as [include: { orderItems: { include: { product } } }] returns
    it: the order row, and each item with its product as it is now. *)
Record OrderView := {
  ov_id : string;
  ov_order : Order;
  ov_items : list (OrderItem * option ProductInfo)
}.

Inductive Json :=
| JError (msg : string)
| JZodIssues
| JInsufficientStock (product : string) (available requested : Z)
| JInsufficientStockAdj (currentStock requested : Z)
| JOrder (o : OrderView)
| JAdjustment (a : InventoryAdjustment) (newStockLevel : Z)
| JProduct (id : string) (p : Product).

Record Response := {
  code : Z;
  json : Json
}.

End Model.

Arguments user {B} _.
Arguments param_id {B} _.
Arguments body {B} _.
Arguments Product : clear implicits.
Arguments OrderItem : clear implicits.
Arguments Order : clear implicits.
Arguments Db : clear implicits.
Arguments Event : clear implicits.
Arguments Socket : clear implicits.
Arguments World : clear implicits.
Arguments ProductPatch : clear implicits.
Arguments ProductInfo : clear implicits.
Arguments OrderView : clear implicits.
Arguments Json : clear implicits.
Arguments Response : clear implicits.

(** ** The store: Prisma statements and transactions *)

Section Handlers.
Context {N : Type} `{JsNumber N}.

(** zod's [z.string().uuid()] test; the validation library is outside the
    repository, so the test is a parameter of the handlers. *)
Variable is_uuid : string → bool.

(** A statement or callback running inside [prisma.$transaction]: it
    either throws ([None]) or returns a value and the updated store. *)
Definition Tx (A : Type) : Type := Db N → option (A * Db N).

Definition tx_ret {A} (a : A) : Tx A := λ d, Some (a, d).

Definition tx_bind {A B} (c : Tx A) (k : A → Tx B) : Tx B :=
  λ d, match c d with
       | Some (a, d') => k a d'
       | None => None
       end.

Notation "'let*' x := c 'in' k" := (tx_bind c (λ x, k))
  (at level 10, x name, c at level 100, k at level 200).

(** [prisma.$transaction(cb)]: the callback's result and store when it
    returns; no result and the store as it was when it throws. *)
Definition transaction {A} (cb : Tx A) (d : Db N) : option A * Db N :=
  match cb d with
  | Some (a, d') => (Some a, d')
  | None => (None, d)
  end.

Definition set_products (ps : gmap string (Product N)) (d : Db N) : Db N :=
  {| products := ps; orders := orders d; adjustments := adjustments d |}.

Definition set_orders (os : gmap string (Order N)) (d : Db N) : Db N :=
  {| products := products d; orders := os; adjustments := adjustments d |}.

Definition set_adjustments (l : list InventoryAdjustment) (d : Db N) : Db N :=
  {| products := products d; orders := orders d; adjustments := l |}.

Definition set_stockLevel (s : Z) (p : Product N) : Product N :=
  {| name := name p; sku := sku p; description := description p;
     price := price p; stockLevel := s;
     lowStockThreshold := lowStockThreshold p |}.

Definition set_status (s : OrderStatus) (o : Order N) : Order N :=
  {| userId := userId o; status := s; totalAmount := totalAmount o;
     orderItems := orderItems o |}.

(** [prisma.product.findUnique({ where: { id } })]. *)
Definition product_findUnique (id : string) (d : Db N) : option (Product N) :=
  products d !! id.

(** [prisma.product.findMany({ where: { id: { in: ids } } })]: every row
    whose id is listed, once, in the table's own order. *)
Definition product_findMany (ids : list string) (d : Db N)
  : list (string * Product N) :=
  filter (λ row, row.1 ∈ ids) (map_to_list (products d)).

(** [prisma.product.findUnique({ where: { sku } })]. *)
Definition product_findUnique_sku (s : string) (d : Db N)
  : option (string * Product N) :=
  find (λ row, bool_decide (sku row.2 = s)) (map_to_list (products d)).

(** [products.find((p) => p.id === id)]. *)
Definition find_product (id : string) (ps : list (string * Product N))
  : option (string * Product N) :=
  find (λ p, bool_decide (p.1 = id)) ps.

(** [tx.product.update({ where: { id }, data })]: throws when no row has
    the id. *)
Definition product_update (id : string) (f : Product N → Product N)
  : Tx (Product N) :=
  λ d, match products d !! id with
       | Some p => Some (f p, set_products (<[id := f p]> (products d)) d)
       | None => None
       end.

(** [data: { stockLevel: { decrement: q } }]. *)
Definition decrement (q : Z) (p : Product N) : Product N :=
  set_stockLevel (stockLevel p - q) p.

(** [tx.inventoryAdjustment.create({ data })]: appends one row. *)
Definition inventoryAdjustment_create (a : InventoryAdjustment)
  : Tx InventoryAdjustment :=
  λ d, Some (a, set_adjustments (adjustments d ++ [a]) d).

(** The id the store assigns to a new order row: one that no row of the
    table has. *)
Definition new_order_id (d : Db N) : string :=
  fresh_string "order" (orders d).

Definition product_info (with_price : bool) (p : Product N)
  : ProductInfo N :=
  {| pi_name := name p; pi_sku := sku p;
     pi_price := if with_price then Some (price p) else None |}.

(** The [include] clause of the order queries, read against store [d]. *)
Definition order_view (with_price : bool) (d : Db N) (id : string)
    (o : Order N) : OrderView N :=
  {| ov_id := id; ov_order := o;
     ov_items := map (λ it, (it, product_info with_price
                                   <$> products d !! oi_productId it))
                     (orderItems o) |}.

(** [tx.order.create({ data: { ..., orderItems: { create } }, include })]. *)
Definition order_create (o : Order N) : Tx (OrderView N) :=
  λ d, let id := new_order_id d in
       let d' := set_orders (<[id := o]> (orders d)) d in
       Some (order_view true d' id o, d').

(** ** Order placement ([controllers/orderController.ts]) *)

(** [createOrderSchema.parse]: at least one item, every [productId] a
    uuid, every [quantity] a positive integer. [None] is a [ZodError]. *)
Definition orderItemSchema (item : OrderLine) : bool :=
  is_uuid (productId item) && bool_decide (0 < quantity item).

Definition createOrderSchema_parse (b : OrderBody) : option OrderBody :=
  if bool_decide (1 ≤ length (items b))%nat && forallb orderItemSchema (items b)
  then Some b else None.

(** Step 2, first loop: the requested quantity summed per product. *)
Definition productQuantities (its : list OrderLine) : list (string * Z) :=
  fold_left
    (λ m item,
       let currentQty := default 0 (Map_get (productId item) m) in
       Map_set (productId item) (currentQty + quantity item) m)
    its [].

(** Step 2, second loop: the response of the first product, in the map's
    iteration order, whose stock is below its summed quantity. *)
Fixpoint check_stock (ps : list (string * Product N)) (pq : list (string * Z))
  : option (Response N) :=
  match pq with
  | [] => None
  | (pid, totalQuantity) :: rest =>
      match find_product pid ps with
      | None => check_stock ps rest
      | Some (_, product) =>
          if bool_decide (stockLevel product < totalQuantity)
          then Some {| code := 400;
                       json := JInsufficientStock (name product)
                                 (stockLevel product) totalQuantity |}
          else check_stock ps rest
      end
  end.

(** Step 3: [data.items.map(...)] building the order-item rows while
    [totalAmount += itemTotal] runs in the same callback ([acc] is the
    running [totalAmount]). [None] when the callback throws on
    [products.find(...)!] being undefined. *)
Fixpoint orderItemsData (ps : list (string * Product N)) (acc : N)
    (its : list OrderLine) : option (N * list (OrderItem N)) :=
  match its with
  | [] => Some (acc, [])
  | item :: rest =>
      match find_product (productId item) ps with
      | None => None
      | Some (_, product) =>
          let itemTotal := num_mul (price product) (num_of_int (quantity item)) in
          match orderItemsData ps (num_add acc itemTotal) rest with
          | None => None
          | Some (total, rows) =>
              Some (total, {| oi_productId := productId item;
                              oi_quantity := quantity item;
                              priceAtTime := price product |} :: rows)
          end
      end
  end.

(** Step 4, the loop of the transaction: per submitted line, decrement the
    product's stock and record an [OUT] adjustment. *)
Fixpoint update_stock (uid orderId : string) (its : list OrderLine)
  : Tx unit :=
  match its with
  | [] => tx_ret tt
  | item :: rest =>
      let* _ := product_update (productId item) (decrement (quantity item)) in
      let* _ := inventoryAdjustment_create
                  {| adj_productId := productId item;
                     adj_userId := uid;
                     adj_quantity := - quantity item;
                     adj_type := OUT;
                     adj_reason := Some ("Order " +:+ orderId) |} in
      update_stock uid orderId rest
  end.

(** Step 4, the callback given to [prisma.$transaction]. *)
Definition createOrder_tx (uid : string) (data : OrderBody)
    (total : N) (rows : list (OrderItem N)) : Tx (OrderView N) :=
  let* order := order_create
                  {| userId := uid;
                     status := default PENDING (ob_status data);
                     totalAmount := total;
                     orderItems := rows |} in
  let* _ := update_stock uid (ov_id order) (items data) in
  tx_ret order.

Definition internal_error : Response N :=
  {| code := 500; json := JError "Internal server error" |}.

Definition zod_error : Response N :=
  {| code := 400; json := JZodIssues |}.

Definition createOrder (req : Request OrderBody) (w : World N)
  : Response N * World N :=
  match createOrderSchema_parse (body req) with
  | None => (zod_error, w)
  | Some data =>
      let uid := user req in
      let productIds := map productId (items data) in
      let uniqueProductIds := Set_spread productIds in
      let products := product_findMany uniqueProductIds (db w) in
      if negb (bool_decide (length products = length uniqueProductIds))
      then ({| code := 404; json := JError "One or more products not found" |}, w)
      else
        match check_stock products (productQuantities (items data)) with
        | Some insufficient => (insufficient, w)
        | None =>
            match orderItemsData products num_zero (items data) with
            | None => (internal_error, w)
            | Some (total, rows) =>
                match transaction (createOrder_tx uid data total rows)
                        (db w) with
                | (None, _) => (internal_error, w)
                | (Some result, d') =>
                    let ev := OrderCreated (ov_id result)
                                (userId (ov_order result))
                                (totalAmount (ov_order result))
                                (length (ov_items result))
                                (status (ov_order result)) in
                    ({| code := 201; json := JOrder result |},
                     {| db := d'; io := try_emit ev (io w) |})
                end
            end
        end
  end.

(** [getOrderById]. *)
Definition order_not_found : Response N :=
  {| code := 404; json := JError "Order not found" |}.

Definition getOrderById (req : Request unit) (w : World N)
  : Response N * World N :=
  match orders (db w) !! param_id req with
  | None => (order_not_found, w)
  | Some order =>
      ({| code := 200;
          json := JOrder (order_view true (db w) (param_id req) order) |}, w)
  end.

(** [prisma.order.update({ where: { id }, data: { status } })]. *)
Definition order_update_status (id : string) (s : OrderStatus)
  : Tx (Order N) :=
  λ d, match orders d !! id with
       | Some o =>
           Some (set_status s o,
                 set_orders (<[id := set_status s o]> (orders d)) d)
       | None => None
       end.

(** [updateOrderStatus]; the body's [status] is one of the enum's values
    by its type, so [updateOrderStatusSchema.parse] accepts it. *)
Definition updateOrderStatus (req : Request StatusBody) (w : World N)
  : Response N * World N :=
  let id := param_id req in
  let data := body req in
  match orders (db w) !! id with
  | None => (order_not_found, w)
  | Some _ =>
      match order_update_status id (sb_status data) (db w) with
      | None => (internal_error, w)
      | Some (updatedOrder, d') =>
          ({| code := 200;
              json := JOrder (order_view false d' id updatedOrder) |},
           {| db := d'; io := io w |})
      end
  end.

(** ** Stock adjustment ([controllers/inventoryController.ts]) *)

Definition createAdjustmentSchema_parse (b : AdjustmentBody)
  : option AdjustmentBody :=
  if is_uuid (ab_productId b) then Some b else None.

(** The callback given to [prisma.$transaction]: the adjustment row, then
    the product's stock set to the level computed before the transaction. *)
Definition createAdjustment_tx (uid : string) (data : AdjustmentBody)
    (newStockLevel : Z) : Tx (InventoryAdjustment * Product N) :=
  let* adjustment := inventoryAdjustment_create
                       {| adj_productId := ab_productId data;
                          adj_userId := uid;
                          adj_quantity := ab_quantity data;
                          adj_type := ab_type data;
                          adj_reason := ab_reason data |} in
  let* updatedProduct := product_update (ab_productId data)
                           (set_stockLevel newStockLevel) in
  tx_ret (adjustment, updatedProduct).

Definition createAdjustment (req : Request AdjustmentBody) (w : World N)
  : Response N * World N :=
  match createAdjustmentSchema_parse (body req) with
  | None => (zod_error, w)
  | Some data =>
      let uid := user req in
      match product_findUnique (ab_productId data) (db w) with
      | None => ({| code := 404; json := JError "Product not found" |}, w)
      | Some product =>
          if bool_decide (ab_type data = IN) && bool_decide (ab_quantity data ≤ 0)
          then ({| code := 400;
                   json := JError "IN adjustments must have positive quantity " |},
                w)
          else if bool_decide (ab_type data = OUT)
                  && bool_decide (0 ≤ ab_quantity data)
          then ({| code := 400;
                   json := JError "OUT adjustments must have negative quantity" |},
                w)
          else
            let newStockLevel := stockLevel product + ab_quantity data in
            if bool_decide (newStockLevel < 0)
            then ({| code := 400;
                     json := JInsufficientStockAdj (stockLevel product)
                               (Z.abs (ab_quantity data)) |}, w)
            else
              match transaction (createAdjustment_tx uid data newStockLevel)
                      (db w) with
              | (None, _) => (internal_error, w)
              | (Some (adjustment, updatedProduct), d') =>
                  let ev := StockUpdated (ab_productId data) (name product)
                              (stockLevel product) (stockLevel updatedProduct)
                              (ab_quantity data) (ab_type data)
                              (ab_reason data) in
                  ({| code := 201;
                      json := JAdjustment adjustment
                                (stockLevel updatedProduct) |},
                   {| db := d'; io := try_emit ev (io w) |})
              end
      end
  end.

(** ** Product update ([controllers/productController.ts]) *)

Definition opt_ok {A} (ok : A → bool) (o : option A) : bool :=
  match o with
  | Some a => ok a
  | None => true
  end.

Definition non_empty (s : string) : bool := bool_decide (1 ≤ String.length s)%nat.

(** [updateProductSchema.parse]: every field optional; when present,
    [name] and [sku] are non-empty, [price] is positive, [stockLevel] and
    [lowStockThreshold] are integers at least 0. *)
Definition updateProductSchema_parse (b : ProductPatch N)
  : option (ProductPatch N) :=
  if opt_ok non_empty (pp_name b)
     && opt_ok non_empty (pp_sku b)
     && opt_ok num_positive (pp_price b)
     && opt_ok (λ z, bool_decide (0 ≤ z)) (pp_stockLevel b)
     && opt_ok (λ z, bool_decide (0 ≤ z)) (pp_lowStockThreshold b)
  then Some b else None.

(** [data] of [prisma.product.update]: the fields present overwrite the
    row's, the others stay. *)
Definition apply_patch (b : ProductPatch N) (p : Product N) : Product N :=
  {| name := default (name p) (pp_name b);
     sku := default (sku p) (pp_sku b);
     description := match pp_description b with
                    | Some t => Some t
                    | None => description p
                    end;
     price := default (price p) (pp_price b);
     stockLevel := default (stockLevel p) (pp_stockLevel b);
     lowStockThreshold := default (lowStockThreshold p)
                            (pp_lowStockThreshold b) |}.

(** [data.sku && data.sku !== existingProduct.sku] followed by the lookup
    of the sku: [true] when another row already has it. *)
Definition sku_taken (data : ProductPatch N) (existing : Product N)
    (d : Db N) : bool :=
  match pp_sku data with
  | Some s =>
      non_empty s && negb (bool_decide (s = sku existing))
      && bool_decide (is_Some (product_findUnique_sku s d))
  | None => false
  end.

Definition updateProduct (req : Request (ProductPatch N)) (w : World N)
  : Response N * World N :=
  let id := param_id req in
  match updateProductSchema_parse (body req) with
  | None => (zod_error, w)
  | Some data =>
      match product_findUnique id (db w) with
      | None => ({| code := 400; json := JError "Product not found" |}, w)
      | Some existingProduct =>
          if sku_taken data existingProduct (db w)
          then ({| code := 400; json := JError "SKU already in use" |}, w)
          else
            match product_update id (apply_patch data) (db w) with
            | None => (internal_error, w)
            | Some (product, d') =>
                ({| code := 200; json := JProduct id product |},
                 {| db := d'; io := io w |})
            end
      end
  end.

(** ** Sequential executions *)

Inductive Op :=
| CreateOrder (req : Request OrderBody)
| CreateAdjustment (req : Request AdjustmentBody)
| UpdateOrderStatus (req : Request StatusBody)
| UpdateProduct (req : Request (ProductPatch N)).

Definition step (op : Op) (w : World N) : Response N * World N :=
  match op with
  | CreateOrder req => createOrder req w
  | CreateAdjustment req => createAdjustment req w
  | UpdateOrderStatus req => updateOrderStatus req w
  | UpdateProduct req => updateProduct req w
  end.

(** The worlds after each request of a sequence handled one by one. *)
Fixpoint states (ops : list Op) (w : World N) : list (World N) :=
  match ops with
  | [] => []
  | op :: rest => let w' := (step op w).2 in w' :: states rest w'
  end.

End Handlers.

Arguments Op : clear implicits.

(** ** Vocabulary of the statements *)

(** The quantity of product [id] an order asks for, over all its lines. *)
Fixpoint requested (id : string) (its : list OrderLine) : Z :=
  match its with
  | [] => 0
  | item :: rest =>
      (if decide (productId item = id) then quantity item else 0)
      + requested id rest
  end.

(** The adjustment row [createOrder] records for one line of order [oid]. *)
Definition order_adjustment (uid oid : string) (item : OrderLine)
  : InventoryAdjustment :=
  {| adj_productId := productId item;
     adj_userId := uid;
     adj_quantity := - quantity item;
     adj_type := OUT;
     adj_reason := Some ("Order " +:+ oid) |}.

(** The sign of the quantity contradicts the adjustment type. *)
Definition sign_mismatch (b : AdjustmentBody) : bool :=
  match ab_type b with
  | IN => bool_decide (ab_quantity b ≤ 0)
  | OUT => bool_decide (0 ≤ ab_quantity b)
  end.

Section Vocabulary.
Context {N : Type} `{JsNumber N}.

Definition line_total (r : OrderItem N) : N :=
  num_mul (priceAtTime r) (num_of_int (oi_quantity r)).

(** Σ [priceAtTime × quantity] over order-item rows, added up from the
    literal [0] in row order. *)
Definition sum_lines (rows : list (OrderItem N)) : N :=
  fold_left (λ acc r, num_add acc (line_total r)) rows num_zero.

(** Row [r] is line [item] priced at the product's price in store [d]. *)
Definition row_of (d : Db N) (item : OrderLine) (r : OrderItem N) : Prop :=
  oi_productId r = productId item
  ∧ oi_quantity r = quantity item
  ∧ ∃ p, products d !! productId item = Some p ∧ priceAtTime r = price p.


(** Every line names a product that has a row. *)
Definition all_products_exist (d : Db N) (its : list OrderLine) : Prop :=
  Forall (λ item, is_Some (products d !! productId item)) its.

(** The stock of product [id] is below what the order asks for. *)
Definition insufficient (d : Db N) (its : list OrderLine) (id : string)
  : bool :=
  match products d !! id with
  | Some p => bool_decide (stockLevel p < requested id its)
  | None => false
  end.

(** The first product, in order of first appearance in the lines, whose
    stock is insufficient. *)
Definition first_insufficient (d : Db N) (its : list OrderLine)
  : option string :=
  find (insufficient d its) (Set_spread (map productId its)).

(** The response of the stock check when product [id] is the one found
    insufficient. *)
Definition insufficient_response (d : Db N) (its : list OrderLine)
    (id : string) : option (Response N) :=
  (λ p, {| code := 400;
           json := JInsufficientStock (name p) (stockLevel p)
                     (requested id its) |}) <$> products d !! id.

(** The requested ids that no product row has. *)
Definition missing_ids (d : Db N) (its : list OrderLine) : list string :=
  filter (λ id, products d !! id = None) (Set_spread (map productId its)).

(** The store after the lines of an order were taken out of stock. *)
Definition stock_taken (its : list OrderLine) (id : string) (p : Product N)
  : Product N :=
  set_stockLevel (stockLevel p - requested id its) p.

(** What a committed order looks like: [view] is the order returned for
    request [req] handled in world [w], and [w'] the world after it. *)
Definition order_placed (req : Request OrderBody) (w : World N)
    (view : OrderView N) (w' : World N) : Prop :=
  let its := items (body req) in
  let oid := new_order_id (db w) in
  let o := ov_order view in
  ov_id view = oid
  ∧ userId o = user req
  ∧ status o = default PENDING (ob_status (body req))
  ∧ Forall2 (row_of (db w)) its (orderItems o)
  ∧ totalAmount o = sum_lines (orderItems o)
  ∧ ov_items view
    = map (λ it, (it, product_info true <$> products (db w) !! oi_productId it))
        (orderItems o)
  ∧ orders (db w') = <[oid := o]> (orders (db w))
  ∧ adjustments (db w')
    = adjustments (db w) ++ map (order_adjustment (user req) oid) its
  ∧ (∀ id, products (db w') !! id
           = stock_taken its id <$> products (db w) !! id)
  ∧ io w' = try_emit (OrderCreated oid (user req) (totalAmount o)
                        (length (orderItems o)) (status o)) (io w).

(** In world [w], order [oid] has the amount and the rows of [o]. *)
Definition same_order (oid : string) (o : Order N) (w : World N) : Prop :=
  ∃ o', orders (db w) !! oid = Some o'
        ∧ totalAmount o' = totalAmount o
        ∧ orderItems o' = orderItems o.

End Vocabulary.

(** ** A shop to run the handlers on

    Amounts are in cents ([Z_JsNumber]). The uuid test is the usual
    8-4-4-4-12 layout of hexadecimal digits. *)

Definition is_hex (a : ascii) : bool :=
  let n := nat_of_ascii a in
  ((48 <=? n) && (n <=? 57) || (65 <=? n) && (n <=? 70)
   || (97 <=? n) && (n <=? 102))%nat.

Fixpoint uuid_format_from (i : nat) (s : string) : bool :=
  match s with
  | EmptyString => (i =? 36)%nat
  | String a rest =>
      (if ((i =? 8) || (i =? 13) || (i =? 18) || (i =? 23))%nat
       then Ascii.eqb a "-"%char else is_hex a)
      && uuid_format_from (S i) rest
  end.

Definition uuid_format (s : string) : bool := uuid_format_from 0 s.

Definition widget_id : string := "11111111-1111-4111-8111-111111111111".
Definition gadget_id : string := "22222222-2222-4222-8222-222222222222".
(** Two well-formed ids that no product row has. *)
Definition ghost_id : string := "33333333-3333-4333-8333-333333333333".
Definition phantom_id : string := "44444444-4444-4444-8444-444444444444".

Definition widget : Product Z :=
  {| name := "Widget"; sku := "W-1"; description := None; price := 2999;
     stockLevel := 10; lowStockThreshold := 2 |}.

Definition gadget : Product Z :=
  {| name := "Gadget"; sku := "G-1"; description := Some "small";
     price := 500; stockLevel := 3; lowStockThreshold := 1 |}.

(** Two products, no order yet, socket server not initialised. *)
Definition shop : World Z :=
  {| db := {| products := <[widget_id := widget]> (<[gadget_id := gadget]> ∅);
              orders := ∅; adjustments := [] |};
     io := None |}.

Definition order_of (lines : list (string * Z)) : Request OrderBody :=
  {| user := "u-1"; param_id := "";
     body := {| items := map (λ l, {| productId := l.1; quantity := l.2 |})
                           lines;
                ob_status := None |} |}.

Definition adjustment_of (id : string) (q : Z) (t : AdjustmentType)
    (reason : string) : Request AdjustmentBody :=
  {| user := "u-1"; param_id := "";
     body := {| ab_productId := id; ab_quantity := q; ab_type := t;
                ab_reason := Some reason |} |}.

(** The order of the shop's first request, [widget] in lines of 4 and 3. *)
Definition first_order : Order Z :=
  {| userId := "u-1"; status := PENDING; totalAmount := 20993;
     orderItems := [ {| oi_productId := widget_id; oi_quantity := 4;
                        priceAtTime := 2999 |};
                     {| oi_productId := widget_id; oi_quantity := 3;
                        priceAtTime := 2999 |} ] |}.

(** The shop after that order. *)
Definition shop_after_order : World Z :=
  (createOrder uuid_format (order_of [(widget_id, 4); (widget_id, 3)]) shop).2.

Definition price_change (id : string) (new_price : Z)
  : Request (ProductPatch Z) :=
  {| user := "u-1"; param_id := id;
     body := {| pp_name := None; pp_sku := None; pp_description := None;
                pp_price := Some new_price; pp_stockLevel := None;
                pp_lowStockThreshold := None |} |}.

Definition status_change (id : string) (s : OrderStatus)
  : Request StatusBody :=
  {| user := "u-1"; param_id := id; body := {| sb_status := s |} |}.

(** A day in the shop: an order, a withdrawal that is refused, a restock,
    an order for all that is left, a price change, a status change. *)
Definition a_day : list (Op Z) :=
  [ CreateOrder (order_of [(widget_id, 4); (widget_id, 3)]);
    CreateAdjustment (adjustment_of gadget_id (-5) OUT "shrinkage");
    CreateAdjustment (adjustment_of gadget_id 20 IN "restock");
    CreateOrder (order_of [(widget_id, 3); (gadget_id, 23)]);
    UpdateProduct (price_change widget_id 3499);
    UpdateOrderStatus (status_change "order" COMPLETED) ].

(** ** Product creation and the authorization gate

    The remaining entry points around the transaction engine:
    [createProduct] ([controllers/productController.ts]), the
    [authenticate] and [authorize] middleware ([middleware/auth.ts]) and
    the routes that chain them in front of the handlers ([routes/*.ts]). *)

(** The [Role] enum of the user model. *)
Inductive Role := ADMIN | STAFF.

#[export] Instance Role_eq_dec : EqDecision Role.
Proof. solve_decision. Defined.

(** [JWTPayload] ([utils/jwt.ts]). *)
Record JWTPayload := {
  jwt_id : string;
  jwt_email : string;
  jwt_role : Role
}.

(** A request as it reaches a route: the [Authorization] header if there
    is one, [req.params.id] and [req.body]. *)
Record HttpRequest (B : Type) := {
  authorization : option string;
  route_id : string;
  http_body : B
}.
Arguments authorization {B} _.
Arguments route_id {B} _.
Arguments http_body {B} _.

(** [s.substring(n)]: [s] without its first [n] characters. *)
Fixpoint substring_from (n : nat) (s : string) : string :=
  match n, s with
  | O, _ => s
  | S n', String _ rest => substring_from n' rest
  | S _, EmptyString => EmptyString
  end.

Section Gate.
Context {N : Type} `{JsNumber N}.

(** [verifyToken] ([utils/jwt.ts]) checks the signature with the
    [jsonwebtoken] library, which is outside the repository: it is a
    parameter, [None] when [jwt.verify] throws. *)
Variable verifyToken : string → option JWTPayload.
Variable is_uuid : string → bool.

(** [authenticate]: the response that ends the request, or the payload put
    in [req.user] before [next()]. *)
Definition authenticate {B} (r : HttpRequest B) : Response N + JWTPayload :=
  match authorization r with
  | None => inl {| code := 401; json := JError "No token provided" |}
  | Some authHeader =>
      if negb (String.prefix "Bearer " authHeader)
      then inl {| code := 401; json := JError "No token provided" |}
      else
        match verifyToken (substring_from 7 authHeader) with
        | Some payload => inr payload
        | None => inl {| code := 401; json := JError "Invalid or expired token" |}
        end
  end.

(** [authorize(...allowedRoles)]: the response that ends the request, or
    [None] for [next()]. *)
Definition authorize (allowedRoles : list Role) (user : option JWTPayload)
  : option (Response N) :=
  match user with
  | None => Some {| code := 401; json := JError "Unauthorized" |}
  | Some u =>
      if negb (bool_decide (jwt_role u ∈ allowedRoles))
      then Some {| code := 403;
                   json := JError "Forbidden: Insufficient permissions" |}
      else None
  end.

(** [router.METHOD(path, authenticate, handler)]. *)
Definition authenticated {B}
    (handler : Request B → World N → Response N * World N)
    (r : HttpRequest B) (w : World N) : Response N * World N :=
  match authenticate r with
  | inl response => (response, w)
  | inr payload =>
      handler {| user := jwt_id payload; param_id := route_id r;
                 body := http_body r |} w
  end.

(** [router.METHOD(path, authenticate, authorize(...roles), handler)]. *)
Definition authorized {B} (allowedRoles : list Role)
    (handler : Request B → World N → Response N * World N)
    (r : HttpRequest B) (w : World N) : Response N * World N :=
  match authenticate r with
  | inl response => (response, w)
  | inr payload =>
      match authorize allowedRoles (Some payload) with
      | Some response => (response, w)
      | None =>
          handler {| user := jwt_id payload; param_id := route_id r;
                     body := http_body r |} w
      end
  end.

(** The body of [POST /api/products], already typed. *)
Record ProductBody := {
  pb_name : string;
  pb_sku : string;
  pb_description : option string;
  pb_price : N;
  pb_stockLevel : option Z;
  pb_lowStockThreshold : option Z
}.

(** [createProductSchema.parse]: [name] and [sku] non-empty, [price]
    positive, [stockLevel] and [lowStockThreshold] integers at least 0 with
    defaults 0 and 10. The result is the [data] of the new row. *)
Definition createProductSchema_parse (b : ProductBody) : option (Product N) :=
  if non_empty (pb_name b)
     && non_empty (pb_sku b)
     && num_positive (pb_price b)
     && opt_ok (λ z, bool_decide (0 ≤ z)) (pb_stockLevel b)
     && opt_ok (λ z, bool_decide (0 ≤ z)) (pb_lowStockThreshold b)
  then Some {| name := pb_name b; sku := pb_sku b;
               description := pb_description b; price := pb_price b;
               stockLevel := default 0 (pb_stockLevel b);
               lowStockThreshold := default 10 (pb_lowStockThreshold b) |}
  else None.

(** The id the store assigns to a new product row. *)
Definition new_product_id (d : Db N) : string :=
  fresh_string "product" (products d).

(** [prisma.product.create({ data })]. *)
Definition product_create (data : Product N) : Tx (string * Product N) :=
  λ d, let id := new_product_id d in
       Some ((id, data), set_products (<[id := data]> (products d)) d).

Definition createProduct (req : Request ProductBody) (w : World N)
  : Response N * World N :=
  match createProductSchema_parse (body req) with
  | None => (zod_error, w)
  | Some data =>
      match product_findUnique_sku (sku data) (db w) with
      | Some existingProduct =>
          ({| code := 400;
              json := JError "Product with this SKU already exists" |}, w)
      | None =>
          match product_create data (db w) with
          | None => (internal_error, w)
          | Some ((id, product), d') =>
              ({| code := 201; json := JProduct id product |},
               {| db := d'; io := io w |})
          end
      end
  end.

(** The routes of [routes/orderRoutes.ts], [routes/inventoryRoutes.ts] and
    [routes/productRoutes.ts] in front of the modelled handlers. *)
Definition post_orders := authorized [ADMIN; STAFF] (createOrder is_uuid).
Definition get_order := authenticated (getOrderById (N := N)).
Definition patch_order_status :=
  authorized [ADMIN; STAFF] (updateOrderStatus (N := N)).
Definition post_inventory := authorized [ADMIN; STAFF] (createAdjustment is_uuid).
Definition post_products := authorized [ADMIN] createProduct.
Definition put_product := authorized [ADMIN] (updateProduct (N := N)).

(** Requests that write to the store, product creation included. *)
Inductive AdminOp :=
| Core (op : Op N)
| CreateProduct (req : Request ProductBody).

Definition step_admin (op : AdminOp) (w : World N) : Response N * World N :=
  match op with
  | Core op => step is_uuid op w
  | CreateProduct req => createProduct req w
  end.

Fixpoint states_admin (ops : list AdminOp) (w : World N) : list (World N) :=
  match ops with
  | [] => []
  | op :: rest =>
      let w' := (step_admin op w).2 in w' :: states_admin rest w'
  end.

(** *** Vocabulary *)

(** The sum of the signed quantities the adjustment log holds for [id]. *)
Fixpoint ledger_sum (id : string) (log : list InventoryAdjustment) : Z :=
  match log with
  | [] => 0
  | a :: rest =>
      (if decide (adj_productId a = id) then adj_quantity a else 0)
      + ledger_sum id rest
  end.

(** The stock level of [id] that the log does not account for: its level
    minus the sum of its adjustments ([None] when [id] has no row). *)
Definition ledger_offset (id : string) (d : Db N) : option Z :=
  (λ p, stockLevel p - ledger_sum id (adjustments d)) <$> products d !! id.


(** The request is not a product update. *)
Definition not_product_update (op : Op N) : Prop :=
  match op with
  | UpdateProduct _ => False
  | _ => True
  end.

(** What the catalogue says of a product, its stock level apart. *)
Definition catalogue_entry (p : Product N)
  : string * string * option string * N * Z :=
  (name p, sku p, description p, price p, lowStockThreshold p).

(** The quantity of product [id] in the rows of an order. *)
Fixpoint rows_quantity (id : string) (rows : list (OrderItem N)) : Z :=
  match rows with
  | [] => 0
  | r :: rest =>
      (if decide (oi_productId r = id) then oi_quantity r else 0)
      + rows_quantity id rest
  end.

(** The SKUs of the product rows, one per row. *)
Definition skus (d : Db N) : list string :=
  (λ row, sku row.2) <$> map_to_list (products d).

(** No two product rows have the same SKU. *)
Definition sku_unique (d : Db N) : Prop := NoDup (skus d).

End Gate.

Arguments ProductBody : clear implicits.
Arguments AdminOp : clear implicits.

(** *** More of the shop *)

(** The tokens the shop's gate accepts. *)
Definition verify_demo (token : string) : option JWTPayload :=
  if String.eqb token "staff-token"
  then Some {| jwt_id := "u-1"; jwt_email := "staff@shop.test";
               jwt_role := STAFF |}
  else if String.eqb token "admin-token"
  then Some {| jwt_id := "u-0"; jwt_email := "admin@shop.test";
               jwt_role := ADMIN |}
  else None.

Definition staff : JWTPayload :=
  {| jwt_id := "u-1"; jwt_email := "staff@shop.test"; jwt_role := STAFF |}.

(** The response to the shop's first order. *)
Definition first_view : OrderView Z :=
  order_view true (db shop_after_order) "order" first_order.

(** A stock count written through the product update. *)
Definition stock_count (id : string) (level : Z) : Request (ProductPatch Z) :=
  {| user := "u-0"; param_id := id;
     body := {| pp_name := None; pp_sku := None; pp_description := None;
                pp_price := None; pp_stockLevel := Some level;
                pp_lowStockThreshold := None |} |}.

Definition new_product (s : string) : Request (ProductBody Z) :=
  {| user := "u-0"; param_id := "";
     body := {| pb_name := "Gizmo"; pb_sku := s; pb_description := None;
                pb_price := 1250; pb_stockLevel := None;
                pb_lowStockThreshold := None |} |}.

Definition gizmo (s : string) : Product Z :=
  {| name := "Gizmo"; sku := s; description := None; price := 1250;
     stockLevel := 0; lowStockThreshold := 10 |}.

(** Orders, adjustments and a status update only. *)
Definition a_core_day : list (Op Z) :=
  [ CreateOrder (order_of [(widget_id, 4); (widget_id, 3)]);
    CreateAdjustment (adjustment_of gadget_id 20 IN "restock");
    CreateOrder (order_of [(widget_id, 3); (gadget_id, 23)]);
    UpdateOrderStatus (status_change "order" CANCELLED) ].

(** The day with the catalogue work around it: a new product, a second one
    with the same SKU, and a try to rename the widget's SKU to the
    gadget's. *)
Definition an_admin_day : list (AdminOp Z) :=
  [ CreateProduct (new_product "Z-1") ]
  ++ map Core a_day
  ++ [ CreateProduct (new_product "Z-1");
       Core (UpdateProduct
               {| user := "u-0"; param_id := widget_id;
                  body := {| pp_name := None; pp_sku := Some "G-1";
                             pp_description := None; pp_price := None;
                             pp_stockLevel := None;
                             pp_lowStockThreshold := None |} |}) ].

(** ** JavaScript numbers on integers

    Quantities and stock levels are integers held in binary64 numbers. A
    sum of two of them is the exact sum when that is at most 2^53 in
    absolute value, and the nearest representable integer otherwise. The
    handlers above add in [Z]; the definitions here give the sums as
    binary64 computes them, to tell where the two agree. *)

Definition MAX_SAFE_INTEGER : Z := 2 ^ 53 - 1.

(** The integer that binary64 holds for the exact value [z]: [z] itself up
    to 2^53 in absolute value, beyond that the nearest multiple of the
    spacing (a power of 2 that leaves 53 significant bits), a tie going to
    the even significand. *)
Definition binary64_round (z : Z) : Z :=
  let a := Z.abs z in
  if bool_decide (a ≤ 2 ^ 53) then z
  else
    let ulp := 2 ^ (Z.log2 a - 52) in
    let q := a / ulp in
    let r := a mod ulp in
    let half := ulp / 2 in
    let q' := if bool_decide (half < r)
                 || (bool_decide (r = half) && Z.odd q)
              then q + 1 else q in
    Z.sgn z * (q' * ulp).

(** [a + b] on integer-valued numbers; [None] when the sum is not finite
    ([Infinity] or [-Infinity]). *)
Definition number_add (a b : Z) : option Z :=
  let r := binary64_round (a + b) in
  if bool_decide (Z.abs r < 2 ^ 1024) then Some r else None.

(** Lines 43-47 of [createOrder] with the sums of line 46 as binary64
    computes them; [None] when a sum is not finite. *)
Definition productQuantities_binary64 (its : list OrderLine)
  : option (list (string * Z)) :=
  fold_left
    (λ acc item,
       match acc with
       | None => None
       | Some m =>
           let currentQty := default 0 (Map_get (productId item) m) in
           match number_add currentQty (quantity item) with
           | Some s => Some (Map_set (productId item) s m)
           | None => None
           end
       end)
    its (Some []).

(** The quantities of all lines of an order, added up. *)
Fixpoint total_quantity (its : list OrderLine) : Z :=
  match its with
  | [] => 0
  | item :: rest => quantity item + total_quantity rest
  end.

Section Binary64Handlers.
Context {N : Type} `{JsNumber N}.
Variable is_uuid : string → bool.

(** Line 48 of [createAdjustment],
    [const newStockLevel = product.stockLevel + data.quantity], as binary64
    computes it. *)
Definition newStockLevel_binary64 (product : Product N)
    (data : AdjustmentBody) : option Z :=
  number_add (stockLevel product) (ab_quantity data).

(** ** Emission that may fail in any way

    [io.emit] belongs to the socket library. [emit ev sent] is what the
    server has broadcast after [io.emit(ev, payload)] on a server that had
    broadcast [sent], or [None] when the call throws. *)
Definition Emit : Type := Event N → list (Event N) → option (list (Event N)).

(** [io.emit] as [try_emit] has it: the event is broadcast. *)
Definition emit_ok : Emit := λ ev sent, Some (sent ++ [ev]).

(** [try { const io = getIO(); io.emit(ev, payload) } catch { console.error }]
    with [getIO] or [io.emit] throwing: the exception is caught and the
    socket handle is what it was. *)
Definition try_emit_with (emit : Emit) (ev : Event N) (s : Socket N)
  : Socket N :=
  match getIO s with
  | Some sent =>
      match emit ev sent with
      | Some sent' => Some sent'
      | None => s
      end
  | None => s
  end.

(** [createOrder] with the emission of lines 131-145 generalised to
    [emit]; everything before it is as in [createOrder]. *)
Definition createOrder_with (emit : Emit) (req : Request OrderBody)
    (w : World N) : Response N * World N :=
  match createOrderSchema_parse is_uuid (body req) with
  | None => (zod_error, w)
  | Some data =>
      let uid := user req in
      let productIds := map productId (items data) in
      let uniqueProductIds := Set_spread productIds in
      let products := product_findMany uniqueProductIds (db w) in
      if negb (bool_decide (length products = length uniqueProductIds))
      then ({| code := 404; json := JError "One or more products not found" |}, w)
      else
        match check_stock products (productQuantities (items data)) with
        | Some insufficient => (insufficient, w)
        | None =>
            match orderItemsData products num_zero (items data) with
            | None => (internal_error, w)
            | Some (total, rows) =>
                match transaction (createOrder_tx uid data total rows)
                        (db w) with
                | (None, _) => (internal_error, w)
                | (Some result, d') =>
                    let ev := OrderCreated (ov_id result)
                                (userId (ov_order result))
                                (totalAmount (ov_order result))
                                (length (ov_items result))
                                (status (ov_order result)) in
                    ({| code := 201; json := JOrder result |},
                     {| db := d'; io := try_emit_with emit ev (io w) |})
                end
            end
        end
  end.

(** [createAdjustment] with the emission of lines 97-112 generalised to
    [emit]; everything before it is as in [createAdjustment]. *)
Definition createAdjustment_with (emit : Emit) (req : Request AdjustmentBody)
    (w : World N) : Response N * World N :=
  match createAdjustmentSchema_parse is_uuid (body req) with
  | None => (zod_error, w)
  | Some data =>
      let uid := user req in
      match product_findUnique (ab_productId data) (db w) with
      | None => ({| code := 404; json := JError "Product not found" |}, w)
      | Some product =>
          if bool_decide (ab_type data = IN) && bool_decide (ab_quantity data ≤ 0)
          then ({| code := 400;
                   json := JError "IN adjustments must have positive quantity " |},
                w)
          else if bool_decide (ab_type data = OUT)
                  && bool_decide (0 ≤ ab_quantity data)
          then ({| code := 400;
                   json := JError "OUT adjustments must have negative quantity" |},
                w)
          else
            let newStockLevel := stockLevel product + ab_quantity data in
            if bool_decide (newStockLevel < 0)
            then ({| code := 400;
                     json := JInsufficientStockAdj (stockLevel product)
                               (Z.abs (ab_quantity data)) |}, w)
            else
              match transaction (createAdjustment_tx uid data newStockLevel)
                      (db w) with
              | (None, _) => (internal_error, w)
              | (Some (adjustment, updatedProduct), d') =>
                  let ev := StockUpdated (ab_productId data) (name product)
                              (stockLevel product) (stockLevel updatedProduct)
                              (ab_quantity data) (ab_type data)
                              (ab_reason data) in
                  ({| code := 201;
                      json := JAdjustment adjustment
                                (stockLevel updatedProduct) |},
                   {| db := d'; io := try_emit_with emit ev (io w) |})
              end
      end
  end.

(** What a committed order leaves: [view] is the order answered for
    request [req] on store [d], and [d'] the store after it. *)
Definition order_committed (req : Request OrderBody) (d : Db N)
    (view : OrderView N) (d' : Db N) : Prop :=
  let its := items (body req) in
  let o := ov_order view in
  ov_id view = new_order_id d
  ∧ userId o = user req
  ∧ status o = default PENDING (ob_status (body req))
  ∧ Forall2 (row_of d) its (orderItems o)
  ∧ totalAmount o = sum_lines (orderItems o)
  ∧ orders d' = <[ov_id view := o]> (orders d)
  ∧ adjustments d'
    = adjustments d ++ map (order_adjustment (user req) (ov_id view)) its
  ∧ (∀ id, products d' !! id = stock_taken its id <$> products d !! id).

(** The adjustment row [createAdjustment] records for request [req]. *)
Definition adjustment_row (req : Request AdjustmentBody)
  : InventoryAdjustment :=
  {| adj_productId := ab_productId (body req); adj_userId := user req;
     adj_quantity := ab_quantity (body req); adj_type := ab_type (body req);
     adj_reason := ab_reason (body req) |}.

(** The store a committed adjustment of product row [p] leaves. *)
Definition adjustment_committed (req : Request AdjustmentBody) (d : Db N)
    (p : Product N) : Db N :=
  {| products := <[ab_productId (body req)
                   := set_stockLevel (stockLevel p + ab_quantity (body req)) p]>
                   (products d);
     orders := orders d;
     adjustments := adjustments d ++ [adjustment_row req] |}.

End Binary64Handlers.

Arguments Emit : clear implicits.

(** *** More of the shop *)

(** An [io.emit] that always throws. *)
Definition emit_throws : Emit Z := λ _ _, None.

(** A delivery too large for an exact sum: 2^53 - 1 widgets on top of the
    10 in stock. *)
Definition huge_delivery : Request AdjustmentBody :=
  adjustment_of widget_id 9007199254740991 IN "delivery".

(** Closes a decidable statement about concrete data by evaluation. *)
Ltac by_evaluation :=
  first [ reflexivity
        | vm_compute; reflexivity
        | apply (bool_decide_unpack _); vm_compute; exact I
        | vm_compute; discriminate
        | repeat constructor; vm_compute; eauto ].

(** ** Lemmas on the containers *)

Lemma Map_get_None k m : Map_get k m = None ↔ k ∉ m.*1.
Proof.
  induction m as [|[k' v] m IH]; simpl.
  - split; [intros _; apply not_elem_of_nil | done].
  - case_decide as Hk; subst.
    + split; [done | intros Hn; exfalso; apply Hn; left].
    + rewrite IH, not_elem_of_cons.
      split; [intros Hn; split; [congruence | done] | tauto].
Qed.

Lemma Map_get_Some k v m : NoDup m.*1 → (k, v) ∈ m → Map_get k m = Some v.
Proof.
  induction m as [|[k' v'] m IH]; simpl; intros Hnd Hin.
  - by apply elem_of_nil in Hin.
  - apply NoDup_cons in Hnd as [Hk' Hnd].
    apply elem_of_cons in Hin as [Heq|Hin].
    + inversion Heq; subst. by rewrite decide_True.
    + case_decide as Hk; subst.
      * exfalso. apply Hk'. apply list_elem_of_fmap. by exists (k, v).
      * by apply IH.
Qed.

Lemma Map_set_absent k v m : k ∉ m.*1 → Map_set k v m = m ++ [(k, v)].
Proof.
  induction m as [|[k' v'] m IH]; simpl; intros Hk; [done|].
  apply not_elem_of_cons in Hk as [Hne Hk].
  rewrite decide_False by done. by rewrite IH.
Qed.

Lemma Map_set_present k v m :
  NoDup m.*1 → k ∈ m.*1 →
  Map_set k v m = map (λ kv, if decide (kv.1 = k) then (k, v) else kv) m.
Proof.
  induction m as [|[k' v'] m IH]; simpl; intros Hnd Hk.
  - by apply elem_of_nil in Hk.
  - apply NoDup_cons in Hnd as [Hk' Hnd].
    case_decide as Heq; subst.
    + f_equal. symmetry. rewrite <- (map_id m) at 2. apply map_ext_in.
      intros [k2 v2] Hin. simpl. case_decide; [|done]. subst.
      exfalso. apply Hk'. apply list_elem_of_fmap. exists (k, v2).
      split; [done|]. by apply list_elem_of_In.
    + f_equal. apply IH; [done|].
      apply elem_of_cons in Hk as [?|?]; [congruence|done].
Qed.

Lemma Map_keys_replace k v (m : list (string * Z)) :
  (map (λ kv, if decide (kv.1 = k) then (k, v) else kv) m).*1 = m.*1.
Proof.
  induction m as [|[k' w] m IH]; [done|].
  cbn [map]. rewrite !fmap_cons, IH. f_equal.
  simpl. by case_decide; subst.
Qed.

Lemma Set_spread_go_ext s1 s2 xs :
  (∀ x, x ∈ s1 ↔ x ∈ s2) → Set_spread_go s1 xs = Set_spread_go s2 xs.
Proof.
  revert s1 s2. induction xs as [|x xs IH]; simpl; intros s1 s2 Hs; [done|].
  destruct (decide (x ∈ s1)) as [H1|H1]; destruct (decide (x ∈ s2)) as [H2|H2].
  - by apply IH.
  - exfalso. apply H2. by apply Hs.
  - exfalso. apply H1. by apply Hs.
  - f_equal. apply IH. intros y. rewrite !elem_of_cons, Hs. done.
Qed.

Lemma Set_spread_go_elem seen xs x :
  x ∈ Set_spread_go seen xs ↔ x ∈ xs ∧ x ∉ seen.
Proof.
  revert seen. induction xs as [|y xs IH]; simpl; intros seen.
  - rewrite elem_of_nil. tauto.
  - case_decide as Hy.
    + rewrite IH, elem_of_cons. split; [tauto|].
      intros [[->|Hx] Hs]; [done | tauto].
    + rewrite !elem_of_cons, IH, not_elem_of_cons.
      destruct (decide (x = y)) as [->|Hne]; tauto.
Qed.

Lemma Set_spread_go_NoDup seen xs : NoDup (Set_spread_go seen xs).
Proof.
  revert seen. induction xs as [|y xs IH]; simpl; intros seen.
  - constructor.
  - case_decide; [apply IH|].
    apply NoDup_cons. split; [|apply IH].
    rewrite Set_spread_go_elem, not_elem_of_cons. tauto.
Qed.

Lemma Set_spread_elem xs x : x ∈ Set_spread xs ↔ x ∈ xs.
Proof.
  unfold Set_spread. rewrite Set_spread_go_elem.
  split; [tauto|]. intros ?. split; [done | apply not_elem_of_nil].
Qed.

Lemma Set_spread_NoDup xs : NoDup (Set_spread xs).
Proof. apply Set_spread_go_NoDup. Qed.

(** ** The aggregation loop *)


Lemma productQuantities_fold (its : list OrderLine) (m : list (string * Z)) :
  NoDup m.*1 →
  fold_left
    (λ m item,
       let currentQty := default 0 (Map_get (productId item) m) in
       Map_set (productId item) (currentQty + quantity item) m)
    its m
  = map (λ kv, (kv.1, kv.2 + requested kv.1 its)) m
    ++ map (λ id, (id, requested id its))
         (Set_spread_go m.*1 (map productId its)).
Proof.
  revert m. induction its as [|item rest IH]; intros m Hnd.
  - simpl. rewrite app_nil_r. rewrite <- (map_id m) at 1.
    apply map_ext. intros [k v]. simpl. f_equal. lia.
  - cbn [fold_left map Set_spread_go requested].
    set (pid := productId item). set (q := quantity item).
    destruct (decide (pid ∈ m.*1)) as [Hin|Hnin].
    + (* the product already has an entry: it is updated in place *)
      destruct (Map_get pid m) as [v|] eqn:Hget;
        [|by apply Map_get_None in Hget].
      cbn [default]. rewrite Map_set_present by done.
      set (m1 := map _ m).
      assert (Hkeys : m1.*1 = m.*1).
      { apply Map_keys_replace. }
      rewrite IH by (by rewrite Hkeys). rewrite Hkeys. f_equal.
      * unfold m1. rewrite map_map. apply map_ext_in.
        intros [k w] Hkw. simpl. apply list_elem_of_In in Hkw.
        case_decide as Hk; simpl.
        -- subst k. rewrite (Map_get_Some _ _ _ Hnd Hkw) in Hget.
           inversion Hget; subst. f_equal. fold pid. rewrite decide_True by done.
           lia.
        -- fold pid. rewrite decide_False by congruence. f_equal.
      * apply map_ext_in. intros id Hid. apply list_elem_of_In in Hid.
        apply Set_spread_go_elem in Hid as [_ Hid].
        rewrite decide_False; [done|]. intros ->. done.
    + (* first line for this product: a new entry at the end *)
      assert (Hget : Map_get pid m = None) by (by apply Map_get_None).
      rewrite Hget. cbn [default]. rewrite Map_set_absent by done.
      assert (Hkeys : (m ++ [(pid, 0 + q)]).*1 = m.*1 ++ [pid])
        by (by rewrite fmap_app).
      rewrite IH.
      2:{ rewrite Hkeys. apply NoDup_app. split; [done|].
          split; [|apply NoDup_singleton].
          intros x Hx Hx'. apply list_elem_of_singleton in Hx'. by subst. }
      rewrite Hkeys, map_app, <- app_assoc. f_equal.
      * apply map_ext_in. intros [k w] Hkw. simpl.
        apply list_elem_of_In in Hkw.
        rewrite decide_False; [done|]. intros Heq. apply Hnin.
        apply list_elem_of_fmap. exists (k, w). split; [|done]. simpl.
        by rewrite <- Heq.
      * simpl. rewrite decide_True by done.
        replace (0 + q + requested pid rest) with (q + requested pid rest)
          by lia.
        f_equal.
        rewrite (Set_spread_go_ext (m.*1 ++ [pid]) (pid :: m.*1)).
        2:{ intros x. rewrite elem_of_app, (elem_of_cons (m.*1)).
            rewrite list_elem_of_singleton. tauto. }
        apply map_ext_in. intros id Hid. apply list_elem_of_In in Hid.
        apply Set_spread_go_elem in Hid as [_ Hid].
        apply not_elem_of_cons in Hid as [Hne _].
        rewrite decide_False; [done|]. intros Heq. by apply Hne.
Qed.

(** The map built by the first loop of step 2 holds, for every distinct
    product in order of first appearance, the sum of its lines. *)
Lemma productQuantities_spec (its : list OrderLine) :
  productQuantities its
  = map (λ id, (id, requested id its)) (Set_spread (map productId its)).
Proof.
  unfold productQuantities. rewrite productQuantities_fold by constructor.
  done.
Qed.

(** ** The store queries *)

Section StoreLemmas.
Context {N : Type} `{JsNumber N}.

Lemma elem_of_product_findMany (ids : list string) (d : Db N) k p :
  (k, p) ∈ product_findMany ids d ↔ products d !! k = Some p ∧ k ∈ ids.
Proof.
  unfold product_findMany. rewrite list_elem_of_filter, elem_of_map_to_list.
  simpl. tauto.
Qed.

Lemma product_findMany_keys_NoDup (ids : list string) (d : Db N) :
  NoDup (product_findMany ids d).*1.
Proof.
  unfold product_findMany.
  eapply sublist_NoDup; [apply (NoDup_fst_map_to_list (products d))|].
  apply fmap_sublist, sublist_filter.
Qed.

(** The guard of step 1 compares lengths; on distinct ids it passes exactly
    when every id has a row. *)
Lemma product_findMany_length (ids : list string) (d : Db N) :
  NoDup ids →
  length (product_findMany ids d) = length ids
  ↔ ∀ id, id ∈ ids → is_Some (products d !! id).
Proof.
  intros Hnd. set (found := product_findMany ids d).
  assert (Hsub : (found.*1) ⊆+ ids).
  { apply NoDup_submseteq; [apply product_findMany_keys_NoDup|].
    intros k Hk. apply list_elem_of_fmap in Hk as [[k' p] [-> Hin]].
    by apply elem_of_product_findMany in Hin as [_ ?]. }
  rewrite <- (length_fmap fst found). split.
  - intros Hlen id Hid.
    assert (Hperm : found.*1 ≡ₚ ids)
      by (apply submseteq_length_Permutation; [done | lia]).
    rewrite <- Hperm in Hid.
    apply list_elem_of_fmap in Hid as [[k p] [-> Hin]].
    apply elem_of_product_findMany in Hin as [Hin _]. by exists p.
  - intros Hall. apply Nat.le_antisymm; [by apply submseteq_length|].
    apply submseteq_length, NoDup_submseteq; [done|].
    intros id Hid. destruct (Hall id Hid) as [p Hp].
    apply list_elem_of_fmap. exists (id, p). split; [done|].
    by apply elem_of_product_findMany.
Qed.

Lemma find_product_spec (ids : list string) (d : Db N) id :
  find_product id (product_findMany ids d)
  = if decide (id ∈ ids) then (λ p, (id, p)) <$> products d !! id else None.
Proof.
  unfold find_product.
  destruct (find _ _) as [[k p]|] eqn:Hfind.
  - apply find_some in Hfind as [Hin Hk]. simpl in Hk.
    apply bool_decide_eq_true in Hk. subst k.
    apply list_elem_of_In, elem_of_product_findMany in Hin as [Hp Hid].
    rewrite decide_True by done. by rewrite Hp.
  - case_decide as Hid; [|done].
    destruct (products d !! id) as [p|] eqn:Hp; [|done]. exfalso.
    assert (Hin : (id, p) ∈ product_findMany ids d)
      by (by apply elem_of_product_findMany).
    apply list_elem_of_In in Hin.
    apply (find_none _ _ Hfind) in Hin. simpl in Hin.
    by rewrite bool_decide_eq_false in Hin.
Qed.

(** ** The stock check *)

Lemma check_stock_spec (ids l : list string) (d : Db N)
    (its : list OrderLine) :
  (∀ id, id ∈ l → id ∈ ids) →
  check_stock (product_findMany ids d)
    (map (λ id, (id, requested id its)) l)
  = find (insufficient d its) l ≫= insufficient_response d its.
Proof.
  induction l as [|id l IH]; intros Hl; [done|].
  cbn [map check_stock find].
  rewrite find_product_spec, decide_True by (apply Hl; left).
  unfold insufficient at 1.
  assert (Hl' : ∀ id, id ∈ l → id ∈ ids) by (intros ??; apply Hl; by right).
  destruct (products d !! id) as [p|] eqn:Hp; cbn [fmap option_fmap option_map].
  - destruct (bool_decide (stockLevel p < requested id its)) eqn:Hlt.
    + cbn. unfold insufficient_response. by rewrite Hp.
    + by apply IH.
  - by apply IH.
Qed.

(** ** Pricing the lines *)

Lemma orderItemsData_spec (ids : list string) (d : Db N)
    (its : list OrderLine) (acc : N) :
  (∀ item, item ∈ its →
     productId item ∈ ids ∧ is_Some (products d !! productId item)) →
  ∃ rows,
    orderItemsData (product_findMany ids d) acc its
    = Some (fold_left (λ a r, num_add a (line_total r)) rows acc, rows)
    ∧ Forall2 (row_of d) its rows.
Proof.
  revert acc. induction its as [|item rest IH]; intros acc Hall.
  - exists []. split; [done | constructor].
  - destruct (Hall item) as [Hid [p Hp]]; [left|].
    cbn [orderItemsData]. rewrite find_product_spec, decide_True by done.
    rewrite Hp. cbn [fmap option_fmap option_map].
    destruct (IH (num_add acc (num_mul (price p) (num_of_int (quantity item)))))
      as (rows & Hrows & Hrel).
    { intros it Hit. apply Hall. by right. }
    rewrite Hrows.
    exists ({| oi_productId := productId item; oi_quantity := quantity item;
               priceAtTime := price p |} :: rows).
    split; [done|].
    constructor; [|done]. repeat split; simpl; eauto.
Qed.

(** ** The stock loop of the order transaction *)

Lemma all_products_exist_elem (d : Db N) (its : list OrderLine) :
  all_products_exist d its
  ↔ ∀ item, item ∈ its → is_Some (products d !! productId item).
Proof. apply Forall_forall. Qed.

Lemma update_stock_spec (uid oid : string) (its : list OrderLine) (d : Db N) :
  all_products_exist d its →
  ∃ d',
    update_stock uid oid its d = Some (tt, d')
    ∧ orders d' = orders d
    ∧ adjustments d' = adjustments d ++ map (order_adjustment uid oid) its
    ∧ ∀ id, products d' !! id = stock_taken its id <$> products d !! id.
Proof.
  rewrite all_products_exist_elem.
  revert d. induction its as [|item rest IH]; intros d Hall.
  - exists d. repeat split; [by rewrite app_nil_r|].
    intros id. destruct (products d !! id) as [p|]; [|done].
    simpl. f_equal. unfold stock_taken. destruct p; simpl.
    unfold set_stockLevel; simpl. f_equal; lia.
  - destruct (Hall item) as [p Hp]; [left|].
    cbn [update_stock]. unfold tx_bind at 1, product_update at 1.
    rewrite Hp. unfold tx_bind at 1, inventoryAdjustment_create at 1.
    set (d1 := set_adjustments _ _).
    destruct (IH d1) as (d' & Hrun & Hord & Hadj & Hprod).
    { intros it Hit. destruct (Hall it) as [p' Hp']; [by right|].
      unfold d1; simpl.
      destruct (decide (productId item = productId it)) as [Heq|Hne].
      - rewrite Heq, lookup_insert_eq. eauto.
      - rewrite lookup_insert_ne by done. eauto. }
    exists d'. split; [done|]. split; [by rewrite Hord|]. split.
    + rewrite Hadj. unfold d1; simpl. by rewrite <- app_assoc.
    + intros id. rewrite Hprod. unfold d1; simpl.
      destruct (decide (productId item = id)) as [Heq|Hne].
      * subst id. rewrite lookup_insert_eq, Hp. simpl. f_equal.
        unfold stock_taken, decrement, set_stockLevel; simpl.
        rewrite decide_True by done. f_equal; lia.
      * rewrite lookup_insert_ne by done.
        destruct (products d !! id) as [p'|]; [|done]. simpl. f_equal.
        unfold stock_taken; simpl. rewrite decide_False by done.
        f_equal; lia.
Qed.

End StoreLemmas.

(** ** The outcomes of [createOrder] *)

Section OrderLemmas.
Context {N : Type} `{JsNumber N}.
Variable is_uuid : string → bool.

Lemma createOrderSchema_parse_Some (b data : OrderBody) :
  createOrderSchema_parse is_uuid b = Some data →
  data = b ∧ items b ≠ []
  ∧ ∀ item, item ∈ items b →
      is_uuid (productId item) = true ∧ 0 < quantity item.
Proof.
  unfold createOrderSchema_parse.
  destruct (bool_decide _ && forallb _ _) eqn:Hok; [|done].
  intros [= <-]. apply andb_true_iff in Hok as [Hlen Hall].
  apply bool_decide_eq_true in Hlen. split; [done|]. split.
  - intros Hnil. rewrite Hnil in Hlen. simpl in Hlen. lia.
  - intros item Hin. rewrite forallb_forall in Hall.
    apply list_elem_of_In, Hall in Hin. unfold orderItemSchema in Hin.
    apply andb_true_iff in Hin as [? Hq].
    by apply bool_decide_eq_true in Hq.
Qed.

Lemma all_products_exist_ids (d : Db N) (its : list OrderLine) :
  all_products_exist d its
  ↔ ∀ id, id ∈ Set_spread (map productId its) → is_Some (products d !! id).
Proof.
  rewrite all_products_exist_elem. split.
  - intros Hall id Hid. rewrite Set_spread_elem in Hid.
    apply list_elem_of_In, in_map_iff in Hid as (item & <- & Hin).
    apply Hall. by apply list_elem_of_In.
  - intros Hall item Hin. apply Hall, Set_spread_elem.
    apply list_elem_of_In, in_map. by apply list_elem_of_In.
Qed.

(** The guard of step 1, as a statement about the store. *)
Lemma resolve_guard (d : Db N) (its : list OrderLine) :
  bool_decide
    (length (product_findMany (Set_spread (map productId its)) d)
     = length (Set_spread (map productId its))) = true
  ↔ all_products_exist d its.
Proof.
  rewrite bool_decide_eq_true, all_products_exist_ids.
  apply product_findMany_length, Set_spread_NoDup.
Qed.

(** Unknown product: 404 and nothing changes. *)
Lemma createOrder_missing (req : Request OrderBody) (w : World N) :
  createOrderSchema_parse is_uuid (body req) = Some (body req) →
  ¬ all_products_exist (db w) (items (body req)) →
  createOrder is_uuid req w
  = ({| code := 404; json := JError "One or more products not found" |}, w).
Proof.
  intros Hparse Hmiss. unfold createOrder. rewrite Hparse. cbn zeta.
  destruct (bool_decide _) eqn:Hguard; [|done].
  by apply resolve_guard in Hguard.
Qed.

(** Insufficient stock: 400 naming the first such product, and nothing
    changes. *)
Lemma createOrder_insufficient (req : Request OrderBody) (w : World N) id p :
  createOrderSchema_parse is_uuid (body req) = Some (body req) →
  all_products_exist (db w) (items (body req)) →
  first_insufficient (db w) (items (body req)) = Some id →
  products (db w) !! id = Some p →
  createOrder is_uuid req w
  = ({| code := 400;
        json := JInsufficientStock (name p) (stockLevel p)
                  (requested id (items (body req))) |}, w).
Proof.
  intros Hparse Hall Hfirst Hp. unfold createOrder. rewrite Hparse. cbn zeta.
  apply resolve_guard in Hall. rewrite Hall. cbn [negb].
  rewrite productQuantities_spec, check_stock_spec by done.
  unfold first_insufficient in Hfirst. rewrite Hfirst. cbn.
  unfold insufficient_response. by rewrite Hp.
Qed.

(** Everything resolves and the stock suffices: the order commits. *)
Lemma createOrder_placed (req : Request OrderBody) (w : World N) :
  createOrderSchema_parse is_uuid (body req) = Some (body req) →
  all_products_exist (db w) (items (body req)) →
  first_insufficient (db w) (items (body req)) = None →
  ∃ view w',
    createOrder is_uuid req w = ({| code := 201; json := JOrder view |}, w')
    ∧ order_placed req w view w'.
Proof.
  intros Hparse Hall Hfirst. unfold createOrder. rewrite Hparse. cbn zeta.
  pose proof Hall as Hguard. apply resolve_guard in Hguard.
  rewrite Hguard. cbn [negb].
  rewrite productQuantities_spec, check_stock_spec by done.
  unfold first_insufficient in Hfirst. rewrite Hfirst. cbn [mbind option_bind].
  destruct (orderItemsData_spec (Set_spread (map productId (items (body req))))
              (db w) (items (body req)) num_zero) as (rows & Hrows & Hrel).
  { intros item Hin.
    split; [|by apply (proj1 (all_products_exist_elem _ _) Hall)].
    apply Set_spread_elem, list_elem_of_In, in_map.
    by apply list_elem_of_In. }
  rewrite Hrows. unfold transaction, createOrder_tx.
  unfold tx_bind at 1, order_create at 1. cbn zeta.
  set (oid := new_order_id (db w)).
  set (o := {| userId := user req;
               status := default PENDING (ob_status (body req));
               totalAmount := _; orderItems := rows |}).
  set (d1 := set_orders _ (db w)).
  destruct (update_stock_spec (user req) oid (items (body req)) d1)
    as (d' & Hrun & Hord & Hadj & Hprod); [done|].
  unfold tx_bind at 1. cbn [ov_id order_view]. rewrite Hrun.
  unfold tx_ret. eexists _, _. split; [reflexivity|].
  unfold order_placed. cbn. repeat split; try done.
  by rewrite List.length_map.
Qed.

(** A violation found by the stock check belongs to a product row. *)
Lemma first_insufficient_Some (d : Db N) (its : list OrderLine) id :
  first_insufficient d its = Some id →
  id ∈ map productId its
  ∧ ∃ p, products d !! id = Some p ∧ stockLevel p < requested id its.
Proof.
  unfold first_insufficient. intros Hfind.
  apply find_some in Hfind as [Hin Hins]. split.
  - by apply Set_spread_elem, list_elem_of_In.
  - unfold insufficient in Hins.
    destruct (products d !! id) as [p|]; [|done].
    exists p. split; [done|]. by apply bool_decide_eq_true in Hins.
Qed.

Lemma first_insufficient_None (d : Db N) (its : list OrderLine) :
  first_insufficient d its = None
  ↔ ∀ id p, id ∈ map productId its → products d !! id = Some p →
            requested id its ≤ stockLevel p.
Proof.
  unfold first_insufficient. split.
  - intros Hfind id p Hid Hp.
    apply Set_spread_elem, list_elem_of_In in Hid.
    apply (find_none _ _ Hfind) in Hid. unfold insufficient in Hid.
    rewrite Hp in Hid. apply bool_decide_eq_false in Hid. lia.
  - intros Hall. destruct (find _ _) as [id|] eqn:Hfind; [|done].
    apply first_insufficient_Some in Hfind as (Hid & p & Hp & Hlt).
    specialize (Hall id p Hid Hp). lia.
Qed.

(** Either the request leaves the world as it was, or it passed the
    schema, the resolution and the stock check. *)
Lemma createOrder_cases (req : Request OrderBody) (w : World N) :
  (createOrder is_uuid req w).2 = w
  ∨ (createOrderSchema_parse is_uuid (body req) = Some (body req)
     ∧ all_products_exist (db w) (items (body req))
     ∧ first_insufficient (db w) (items (body req)) = None).
Proof.
  destruct (createOrderSchema_parse is_uuid (body req)) as [data|] eqn:Hparse.
  2:{ left. unfold createOrder. by rewrite Hparse. }
  pose proof (createOrderSchema_parse_Some _ _ Hparse) as [-> _].
  destruct (bool_decide
              (length (product_findMany
                         (Set_spread (map productId (items (body req)))) (db w))
               = length (Set_spread (map productId (items (body req))))))
    eqn:Hguard.
  2:{ left. rewrite createOrder_missing; [done..|].
      intros Hall. apply resolve_guard in Hall. congruence. }
  apply resolve_guard in Hguard.
  destruct (first_insufficient (db w) (items (body req))) as [id|] eqn:Hfirst.
  - left. destruct (first_insufficient_Some _ _ _ Hfirst) as (_ & p & Hp & _).
    by rewrite (createOrder_insufficient _ _ id p).
  - by right.
Qed.

(** ** The outcomes of [createAdjustment] *)

Lemma sign_mismatch_guards (b : AdjustmentBody) :
  sign_mismatch b
  = (bool_decide (ab_type b = IN) && bool_decide (ab_quantity b ≤ 0))
    || (bool_decide (ab_type b = OUT) && bool_decide (0 ≤ ab_quantity b)).
Proof.
  unfold sign_mismatch. destruct (ab_type b); cbn.
  - by rewrite orb_false_r.
  - done.
Qed.

Lemma createAdjustment_applied (req : Request AdjustmentBody) (w : World N) p :
  is_uuid (ab_productId (body req)) = true →
  products (db w) !! ab_productId (body req) = Some p →
  sign_mismatch (body req) = false →
  0 ≤ stockLevel p + ab_quantity (body req) →
  let b := body req in
  let adj := {| adj_productId := ab_productId b; adj_userId := user req;
                adj_quantity := ab_quantity b; adj_type := ab_type b;
                adj_reason := ab_reason b |} in
  let level := stockLevel p + ab_quantity b in
  createAdjustment is_uuid req w
  = ({| code := 201; json := JAdjustment adj level |},
     {| db := {| products := <[ab_productId b := set_stockLevel level p]>
                               (products (db w));
                 orders := orders (db w);
                 adjustments := adjustments (db w) ++ [adj] |};
        io := try_emit (StockUpdated (ab_productId b) (name p) (stockLevel p)
                          level (ab_quantity b) (ab_type b) (ab_reason b))
                (io w) |}).
Proof.
  intros Huuid Hp Hsign Hlevel. cbn zeta.
  unfold createAdjustment, createAdjustmentSchema_parse. rewrite Huuid.
  unfold product_findUnique. rewrite Hp.
  rewrite sign_mismatch_guards in Hsign.
  apply orb_false_iff in Hsign as [-> ->].
  rewrite bool_decide_eq_false_2 by lia.
  unfold transaction, createAdjustment_tx.
  unfold tx_bind at 1, inventoryAdjustment_create at 1.
  unfold tx_bind at 1, product_update at 1. cbn [products set_adjustments].
  rewrite Hp. reflexivity.
Qed.

(** Either the request leaves the world as it was, or the adjustment was
    applied to an existing product with a level that is not negative. *)
Lemma createAdjustment_cases (req : Request AdjustmentBody) (w : World N) :
  (createAdjustment is_uuid req w).2 = w
  ∨ ∃ p, is_uuid (ab_productId (body req)) = true
         ∧ products (db w) !! ab_productId (body req) = Some p
         ∧ sign_mismatch (body req) = false
         ∧ 0 ≤ stockLevel p + ab_quantity (body req).
Proof.
  unfold createAdjustment, createAdjustmentSchema_parse.
  destruct (is_uuid _) eqn:Huuid; [|by left].
  unfold product_findUnique.
  destruct (products (db w) !! _) as [p|] eqn:Hp; [|by left].
  destruct (sign_mismatch (body req)) eqn:Hsign.
  - left. rewrite sign_mismatch_guards in Hsign.
    apply orb_true_iff in Hsign as [->|Hout]; [done|].
    destruct (bool_decide (ab_type _ = IN) && _); [done|]. by rewrite Hout.
  - pose proof Hsign as Hguards. rewrite sign_mismatch_guards in Hguards.
    apply orb_false_iff in Hguards as [-> ->].
    destruct (bool_decide (stockLevel p + _ < 0)) eqn:Hneg; [by left|].
    apply bool_decide_eq_false in Hneg.
    right. exists p. repeat split; first [done | lia].
Qed.

End OrderLemmas.

(** ** Order placement: totals, stock check, duplicate lines *)

Section OrderClaims.
Context {N : Type} `{JsNumber N}.
Variable is_uuid : string → bool.


(** C4. A product [P] with stock level 10 ordered in two lines of 4 and 3:
    the order is answered 201, [P]'s stock level becomes 3, and exactly two
    adjustment rows are appended, of quantities -4 and -3, type [OUT] and
    reason "Order <id>", where <id> is the id, unused before, under which
    the store now holds the order. The check is on the sum of the
    lines: with lines of 6 and 5 the same product is refused with 11
    requested against 10 available, although each line alone would fit. *)
Theorem createOrder_duplicate_lines (w : World N) (P uid : string)
    (p : Product N) (st : option OrderStatus) :
  is_uuid P = true →
  products (db w) !! P = Some p →
  stockLevel p = 10 →
  let order a b :=
    {| user := uid; param_id := "";
       body := {| items := [ {| productId := P; quantity := a |};
                             {| productId := P; quantity := b |} ];
                  ob_status := st |} |} in
  (∃ view w',
     createOrder is_uuid (order 4 3) w
     = ({| code := 201; json := JOrder view |}, w')
     ∧ stockLevel <$> products (db w') !! P = Some 3
     ∧ adjustments (db w')
       = adjustments (db w)
         ++ [ {| adj_productId := P; adj_userId := uid; adj_quantity := -4;
                 adj_type := OUT;
                 adj_reason := Some ("Order " +:+ ov_id view) |};
              {| adj_productId := P; adj_userId := uid; adj_quantity := -3;
                 adj_type := OUT;
                 adj_reason := Some ("Order " +:+ ov_id view) |} ]
     ∧ orders (db w) !! ov_id view = None
     ∧ orders (db w') !! ov_id view = Some (ov_order view))
  ∧ createOrder is_uuid (order 6 5) w
    = ({| code := 400; json := JInsufficientStock (name p) 10 11 |}, w).
Proof.
  intros Huuid Hp Hstock order.
  assert (Hparse : ∀ a b, 0 < a → 0 < b →
            createOrderSchema_parse is_uuid (body (order a b))
            = Some (body (order a b))).
  { intros a b Ha Hb. unfold createOrderSchema_parse, orderItemSchema. simpl.
    rewrite Huuid. by rewrite !bool_decide_eq_true_2 by lia. }
  assert (Hall : ∀ a b, all_products_exist (db w) (items (body (order a b)))).
  { intros a b. repeat constructor; simpl; eauto. }
  assert (Hreq : ∀ a b, requested P (items (body (order a b))) = a + b).
  { intros a b. simpl. rewrite !decide_True by done. lia. }
  assert (Hids : ∀ a b id, id ∈ map productId (items (body (order a b)))
                           ↔ id = P).
  { intros a b id. simpl. rewrite !elem_of_cons, elem_of_nil. tauto. }
  split.
  - destruct (createOrder_placed is_uuid (order 4 3) w)
      as (view & w' & Hrun & Hid & _ & _ & _ & _ & _ & Hord & Hadj & Hprod & _).
    + apply Hparse; lia.
    + apply Hall.
    + apply first_insufficient_None. intros id p' Hid Hp'.
      apply Hids in Hid as ->.
      rewrite Hreq. rewrite Hp in Hp'. inversion Hp'; subst. lia.
    + exists view, w'. split; [done|]. split; [|split; [|split]].
      * rewrite Hprod, Hp. simpl. rewrite !decide_True by done.
        f_equal. lia.
      * rewrite Hadj, Hid. reflexivity.
      * rewrite Hid. apply fresh_string_fresh.
      * rewrite Hord, Hid. apply lookup_insert_eq.
  - assert (Hfirst : first_insufficient (db w) (items (body (order 6 5)))
                     = Some P).
    { destruct (first_insufficient _ _) as [id|] eqn:Hfirst.
      - apply first_insufficient_Some in Hfirst as [Hid _].
        f_equal. by apply Hids in Hid.
      - rewrite first_insufficient_None in Hfirst.
        specialize (Hfirst P p). rewrite Hreq in Hfirst.
        assert (6 + 5 ≤ stockLevel p); [|lia].
        apply Hfirst; [by apply Hids | done]. }
    rewrite (createOrder_insufficient is_uuid _ w P p); try done.
    + rewrite Hreq, Hstock. reflexivity.
    + apply Hparse; lia.
Qed.


End OrderClaims.

(** ** Status and product updates *)

Section UpdateLemmas.
Context {N : Type} `{JsNumber N}.

Lemma updateOrderStatus_found (req : Request StatusBody) (w : World N) o :
  orders (db w) !! param_id req = Some o →
  let o' := set_status (sb_status (body req)) o in
  let d' := set_orders (<[param_id req := o']> (orders (db w))) (db w) in
  updateOrderStatus req w
  = ({| code := 200; json := JOrder (order_view false d' (param_id req) o') |},
     {| db := d'; io := io w |}).
Proof.
  intros Ho. unfold updateOrderStatus, order_update_status. by rewrite Ho.
Qed.

Lemma updateOrderStatus_not_found (req : Request StatusBody) (w : World N) :
  orders (db w) !! param_id req = None →
  updateOrderStatus req w = (order_not_found, w).
Proof. intros Ho. unfold updateOrderStatus. by rewrite Ho. Qed.

Lemma updateProductSchema_parse_Some (b data : ProductPatch N) :
  updateProductSchema_parse b = Some data →
  data = b ∧ ∀ z, pp_stockLevel b = Some z → 0 ≤ z.
Proof.
  unfold updateProductSchema_parse.
  destruct (_ && _) eqn:Hok; [|done]. intros [= <-]. split; [done|].
  intros z Hz. rewrite !andb_true_iff in Hok.
  destruct Hok as [[_ Hstock] _]. rewrite Hz in Hstock. simpl in Hstock.
  by apply bool_decide_eq_true in Hstock.
Qed.

(** [updateProduct] writes the product table only, and at most the row of
    the id in the route. *)
Lemma updateProduct_cases (req : Request (ProductPatch N)) (w : World N) :
  (updateProduct req w).2 = w
  ∨ ∃ p, updateProductSchema_parse (body req) = Some (body req)
         ∧ products (db w) !! param_id req = Some p
         ∧ (updateProduct req w).2
           = {| db := set_products
                        (<[param_id req := apply_patch (body req) p]>
                           (products (db w))) (db w);
                io := io w |}.
Proof.
  unfold updateProduct.
  destruct (updateProductSchema_parse (body req)) as [data|] eqn:Hparse;
    [|by left].
  pose proof (updateProductSchema_parse_Some _ _ Hparse) as [-> _].
  unfold product_findUnique, product_update.
  destruct (products (db w) !! param_id req) as [p|] eqn:Hp; [|by left].
  destruct (sku_taken _ _ _); [by left|].
  right. by exists p.
Qed.

End UpdateLemmas.

(** ** Sequential executions: stock levels and committed orders *)

Section Invariants.
Context {N : Type} `{JsNumber N}.
Variable is_uuid : string → bool.




Lemma updateOrderStatus_products (req : Request StatusBody) (w : World N) :
  products (db (updateOrderStatus req w).2) = products (db w)
  ∧ adjustments (db (updateOrderStatus req w).2) = adjustments (db w).
Proof.
  destruct (orders (db w) !! param_id req) as [o|] eqn:Ho.
  - by rewrite (updateOrderStatus_found req w o).
  - by rewrite updateOrderStatus_not_found.
Qed.



Lemma step_same_order (op : Op N) (w : World N) oid o :
  same_order oid o w → same_order oid o (step is_uuid op w).2.
Proof.
  intros (o' & Ho' & Htotal & Hrows).
  destruct op as [req|req|req|req]; simpl.
  - destruct (createOrder_cases is_uuid req w)
      as [->|(Hparse & Hall & Hfirst)]; [by exists o'|].
    destruct (createOrder_placed is_uuid req w Hparse Hall Hfirst)
      as (view & w' & -> & _ & _ & _ & _ & _ & _ & Hord & _).
    exists o'. split; [|done]. cbn [snd]. rewrite Hord.
    rewrite lookup_insert_ne; [done|]. intros Heq.
    unfold new_order_id in Heq. rewrite <- Heq in Ho'.
    by rewrite fresh_string_fresh in Ho'.
  - destruct (createAdjustment_cases is_uuid req w)
      as [->|(p & Huuid & Hp & Hsign & Hlevel)]; [by exists o'|].
    rewrite (createAdjustment_applied is_uuid req w p) by done.
    by exists o'.
  - destruct (orders (db w) !! param_id req) as [o1|] eqn:Ho1.
    + rewrite (updateOrderStatus_found req w o1) by done.
      unfold same_order. cbn.
      destruct (decide (param_id req = oid)) as [Heq|Hne].
      * subst oid. rewrite Ho1 in Ho'. inversion Ho'; subst o1.
        exists (set_status (sb_status (body req)) o').
        by rewrite lookup_insert_eq.
      * exists o'. by rewrite lookup_insert_ne.
    + rewrite updateOrderStatus_not_found by done. by exists o'.
  - destruct (updateProduct_cases req w) as [->|(p & _ & _ & ->)];
      by exists o'.
Qed.

End Invariants.

(** ** Committed orders, notification, adjustments, unknown products *)

Section Claims.
Context {N : Type} `{JsNumber N}.
Variable is_uuid : string → bool.

(** C9. Once the store holds an order, its [totalAmount] and its order-item
    rows (product id, quantity, [priceAtTime]) are the same in the store
    left by every later request, whatever the sequence of orders,
    adjustments, status updates and product updates. [updateOrderStatus]
    on that order rewrites its row with the new status and every other
    field as it was, and touches nothing else in the store. [getOrderById]
    returns the stored [totalAmount] and rows, and returns the same ones
    after any [updateProduct], a price change included. *)
Theorem committed_order_frozen (ops : list (Op N)) (w : World N)
    (oid : string) (o : Order N) :
  orders (db w) !! oid = Some o →
  Forall (same_order oid o) (states is_uuid ops w)
  ∧ (∀ req : Request StatusBody,
       param_id req = oid →
       db (updateOrderStatus req w).2
       = set_orders (<[oid := set_status (sb_status (body req)) o]>
                       (orders (db w))) (db w))
  ∧ (∀ (patch : Request (ProductPatch N)) (get : Request unit),
       param_id get = oid →
       let w' := (updateProduct patch w).2 in
       ∃ v v',
         getOrderById get w = ({| code := 200; json := JOrder v |}, w)
         ∧ getOrderById get w' = ({| code := 200; json := JOrder v' |}, w')
         ∧ ov_order v = o ∧ (ov_items v).*1 = orderItems o
         ∧ ov_order v' = o ∧ (ov_items v').*1 = orderItems o).
Proof.
  intros Ho. split; [|split].
  - assert (Hsame : same_order oid o w) by (by exists o).
    clear Ho. revert w Hsame.
    induction ops as [|op rest IH]; intros w Hsame; simpl.
    + constructor.
    + pose proof (step_same_order is_uuid op w oid o Hsame) as Hstep.
      constructor; [done|]. by apply IH.
  - intros req <-. by rewrite (updateOrderStatus_found req w o).
  - intros patch get <-. cbn zeta.
    assert (Hitems : ∀ d : Db N,
              (ov_items (order_view true d (param_id get) o)).*1
              = orderItems o).
    { intros d. cbn [ov_items order_view].
      induction (orderItems o) as [|it l IHl]; [done|].
      cbn [map]. by rewrite fmap_cons, IHl. }
    assert (Ho' : orders (db (updateProduct patch w).2) !! param_id get
                  = Some o).
    { by destruct (updateProduct_cases patch w) as [->|(p & _ & _ & ->)]. }
    eexists _, _. unfold getOrderById. rewrite Ho, Ho'.
    repeat split; try done; apply Hitems.
Qed.

(** C5, as the code has it. A request with a uuid product id whose
    quantity sign contradicts its type changes nothing: no stock level, no
    adjustment row, no event. The product is looked up first: the answer is
    404 "Product not found" when the product has no row, and the 400
    sign/type validation error when it has one. *)
Theorem createAdjustment_sign_mismatch (req : Request AdjustmentBody)
    (w : World N) :
  is_uuid (ab_productId (body req)) = true →
  sign_mismatch (body req) = true →
  createAdjustment is_uuid req w
  = (match products (db w) !! ab_productId (body req) with
     | None => {| code := 404; json := JError "Product not found" |}
     | Some _ =>
         {| code := 400;
            json := JError
                      match ab_type (body req) with
                      | IN => "IN adjustments must have positive quantity "
                      | OUT => "OUT adjustments must have negative quantity"
                      end |}
     end, w).
Proof.
  intros Huuid Hsign.
  unfold createAdjustment, createAdjustmentSchema_parse, product_findUnique.
  rewrite Huuid.
  destruct (products (db w) !! _) as [p|]; [|done].
  unfold sign_mismatch in Hsign.
  destruct (ab_type (body req)); cbn; by rewrite Hsign.
Qed.

(** C6, as the code has it. A request that passes the schema and names at
    least one product id without a row is answered 404 with the fixed
    message "One or more products not found", which does not tell which
    ids are unknown, and the world is returned as it was: no order, item
    or adjustment row, no stock change, no event. *)
Theorem createOrder_unknown_product (req : Request OrderBody) (w : World N) :
  createOrderSchema_parse is_uuid (body req) = Some (body req) →
  missing_ids (db w) (items (body req)) ≠ [] →
  createOrder is_uuid req w
  = ({| code := 404; json := JError "One or more products not found" |}, w).
Proof.
  intros Hparse Hmiss. apply createOrder_missing; [done|].
  intros Hall. apply Hmiss.
  rewrite all_products_exist_ids in Hall.
  destruct (missing_ids _ _) as [|id l] eqn:Hids; [done|]. exfalso.
  assert (Hid : id ∈ missing_ids (db w) (items (body req)))
    by (rewrite Hids; left).
  apply list_elem_of_filter in Hid as [Hnone Hid].
  destruct (Hall id Hid) as [p Hp]. congruence.
Qed.

End Claims.

(** ** The theorems at work in the shop *)



(** The scenario of C4 on the shop's widget. *)
Lemma createOrder_duplicate_lines_witness :
  (∃ view w',
     createOrder uuid_format (order_of [(widget_id, 4); (widget_id, 3)]) shop
     = ({| code := 201; json := JOrder view |}, w')
     ∧ stockLevel <$> products (db w') !! widget_id = Some 3
     ∧ adjustments (db w')
       = adjustments (db shop)
         ++ [ {| adj_productId := widget_id; adj_userId := "u-1";
                 adj_quantity := -4; adj_type := OUT;
                 adj_reason := Some ("Order " +:+ ov_id view) |};
              {| adj_productId := widget_id; adj_userId := "u-1";
                 adj_quantity := -3; adj_type := OUT;
                 adj_reason := Some ("Order " +:+ ov_id view) |} ]
     ∧ orders (db shop) !! ov_id view = None
     ∧ orders (db w') !! ov_id view = Some (ov_order view))
  ∧ createOrder uuid_format (order_of [(widget_id, 6); (widget_id, 5)]) shop
    = ({| code := 400; json := JInsufficientStock "Widget" 10 11 |}, shop).
Proof.
  apply (createOrder_duplicate_lines uuid_format shop widget_id "u-1" widget
           None); by_evaluation.
Defined.


(** The first order is still the same at the end of the day, after a
    second order, a price change of its product and its own status
    change. *)
Lemma committed_order_frozen_witness :
  let w := shop_after_order in
  orders (db w) !! "order" = Some first_order
  ∧ Forall (same_order "order" first_order)
      (states uuid_format (drop 1 a_day) w)
  ∧ (∀ req : Request StatusBody,
       param_id req = "order" →
       db (updateOrderStatus req w).2
       = set_orders (<["order" := set_status (sb_status (body req)) first_order]>
                       (orders (db w))) (db w))
  ∧ (∀ (patch : Request (ProductPatch Z)) (get : Request unit),
       param_id get = "order" →
       let w' := (updateProduct patch w).2 in
       ∃ v v',
         getOrderById get w = ({| code := 200; json := JOrder v |}, w)
         ∧ getOrderById get w' = ({| code := 200; json := JOrder v' |}, w')
         ∧ ov_order v = first_order ∧ (ov_items v).*1 = orderItems first_order
         ∧ ov_order v' = first_order
         ∧ (ov_items v').*1 = orderItems first_order).
Proof.
  assert (Hfirst : orders (db shop_after_order) !! "order" = Some first_order)
    by by_evaluation.
  split; [exact Hfirst|].
  exact (committed_order_frozen uuid_format (drop 1 a_day)
           shop_after_order "order" first_order Hfirst).
Defined.

(** [type = IN] with quantity -5 on the gadget, which exists. *)
Lemma createAdjustment_sign_mismatch_witness :
  createAdjustment uuid_format (adjustment_of gadget_id (-5) IN "oops") shop
  = ({| code := 400;
        json := JError "IN adjustments must have positive quantity " |},
     shop).
Proof.
  apply (createAdjustment_sign_mismatch uuid_format
           (adjustment_of gadget_id (-5) IN "oops") shop); by_evaluation.
Defined.

(** C5 as stated fails. [type = IN] with quantity -5 for a product id
    that has no row: the sign contradicts the type, and the answer is the
    404 of the product lookup, not the 400 of the sign validation. *)
Lemma createAdjustment_lookup_before_validation :
  let req := adjustment_of ghost_id (-5) IN "oops" in
  uuid_format (ab_productId (body req)) = true
  ∧ sign_mismatch (body req) = true
  ∧ products (db shop) !! ab_productId (body req) = None
  ∧ createAdjustment uuid_format req shop
    = ({| code := 404; json := JError "Product not found" |}, shop)
  ∧ code (createAdjustment uuid_format req shop).1 ≠ 400.
Proof. repeat split; by_evaluation. Qed.

(** One known and one unknown product. *)
Lemma createOrder_unknown_product_witness :
  createOrder uuid_format (order_of [(widget_id, 1); (ghost_id, 2)]) shop
  = ({| code := 404; json := JError "One or more products not found" |}, shop).
Proof.
  apply (createOrder_unknown_product uuid_format
           (order_of [(widget_id, 1); (ghost_id, 2)]) shop); by_evaluation.
Defined.

(** C6 as stated fails. Two requests whose unknown ids differ get the very
    same 404 response: the response does not tell which ids are unknown. *)
Lemma createOrder_404_hides_ids :
  let a := order_of [(widget_id, 1); (ghost_id, 2)] in
  let b := order_of [(phantom_id, 1); (widget_id, 2)] in
  missing_ids (db shop) (items (body a)) = [ghost_id]
  ∧ missing_ids (db shop) (items (body b)) = [phantom_id]
  ∧ ghost_id ≠ phantom_id
  ∧ (createOrder uuid_format a shop).1 = (createOrder uuid_format b shop).1
  ∧ (createOrder uuid_format a shop).1
    = {| code := 404; json := JError "One or more products not found" |}.
Proof. repeat split; by_evaluation. Qed.

(** ** Further properties of the handlers *)

Section OutcomeLemmas.
Context {N : Type} `{JsNumber N}.
Variable is_uuid : string → bool.

(** Either the request passed the schema, the resolution and the stock
    check, or it is answered with a code other than 201 and the world as
    it was. *)
Lemma createOrder_outcome (req : Request OrderBody) (w : World N) :
  (createOrderSchema_parse is_uuid (body req) = Some (body req)
   ∧ all_products_exist (db w) (items (body req))
   ∧ first_insufficient (db w) (items (body req)) = None)
  ∨ ∃ r, createOrder is_uuid req w = (r, w) ∧ code r ≠ 201.
Proof.
  destruct (createOrderSchema_parse is_uuid (body req)) as [data|] eqn:Hparse.
  2:{ right. exists zod_error. unfold createOrder. by rewrite Hparse. }
  pose proof (createOrderSchema_parse_Some _ _ _ Hparse) as [-> _].
  destruct (bool_decide
              (length (product_findMany
                         (Set_spread (map productId (items (body req)))) (db w))
               = length (Set_spread (map productId (items (body req))))))
    eqn:Hguard.
  2:{ right. eexists. split; [apply createOrder_missing; [done|]|done].
      intros Hall. apply resolve_guard in Hall. congruence. }
  apply resolve_guard in Hguard.
  destruct (first_insufficient (db w) (items (body req))) as [id|] eqn:Hfirst.
  - right. destruct (first_insufficient_Some _ _ _ Hfirst) as (_ & p & Hp & _).
    eexists. split; [by apply (createOrder_insufficient _ _ _ id p)|done].
  - by left.
Qed.

Lemma createAdjustment_outcome (req : Request AdjustmentBody) (w : World N) :
  (∃ p, is_uuid (ab_productId (body req)) = true
        ∧ products (db w) !! ab_productId (body req) = Some p
        ∧ sign_mismatch (body req) = false
        ∧ 0 ≤ stockLevel p + ab_quantity (body req))
  ∨ ∃ r, createAdjustment is_uuid req w = (r, w) ∧ code r ≠ 201.
Proof.
  unfold createAdjustment, createAdjustmentSchema_parse.
  destruct (is_uuid _) eqn:Huuid; [|right; by eexists].
  unfold product_findUnique.
  destruct (products (db w) !! _) as [p|] eqn:Hp; [|right; by eexists].
  destruct (sign_mismatch (body req)) eqn:Hsign.
  - right. rewrite sign_mismatch_guards in Hsign.
    apply orb_true_iff in Hsign as [->|Hout]; [by eexists|].
    destruct (bool_decide (ab_type _ = IN) && _); [by eexists|].
    rewrite Hout. by eexists.
  - pose proof Hsign as Hguards. rewrite sign_mismatch_guards in Hguards.
    apply orb_false_iff in Hguards as [-> ->].
    destruct (bool_decide (stockLevel p + _ < 0)) eqn:Hneg;
      [right; by eexists|].
    apply bool_decide_eq_false in Hneg.
    left. exists p. repeat split; first [done | lia].
Qed.



Lemma rows_quantity_requested (d : Db N) id its (rows : list (OrderItem N)) :
  Forall2 (row_of d) its rows → rows_quantity id rows = requested id its.
Proof.
  induction 1 as [|item r its rows (Hid & Hq & _) _ IH]; simpl; [done|].
  by rewrite IH, Hid, Hq.
Qed.

Lemma product_info_stock_taken its id (p : Product N) b :
  product_info b (stock_taken its id p) = product_info b p.
Proof. done. Qed.

End OutcomeLemmas.

Section LedgerAndEvents.
Context {N : Type} `{JsNumber N}.
Variable is_uuid : string → bool.



(** X2. [updateProduct] with a [stockLevel] field writes that level
    straight into the product row and records no adjustment: the log is
    left as it was, so the level is no longer the one the log accounts
    for. *)
Theorem updateProduct_bypasses_ledger (req : Request (ProductPatch N))
    (w : World N) (p : Product N) (z : Z) :
  updateProductSchema_parse (body req) = Some (body req) →
  products (db w) !! param_id req = Some p →
  sku_taken (body req) p (db w) = false →
  pp_stockLevel (body req) = Some z →
  ∃ p' w',
    updateProduct req w
    = ({| code := 200; json := JProduct (param_id req) p' |}, w')
    ∧ products (db w') !! param_id req = Some p'
    ∧ stockLevel p' = z
    ∧ adjustments (db w') = adjustments (db w)
    ∧ ledger_offset (param_id req) (db w')
      = (λ o, o + (z - stockLevel p)) <$> ledger_offset (param_id req) (db w).
Proof.
  intros Hparse Hp Hsku Hz. unfold updateProduct.
  rewrite Hparse. unfold product_findUnique, product_update.
  rewrite Hp, Hsku. eexists _, _. split; [reflexivity|].
  cbn [db products adjustments set_products]. rewrite lookup_insert_eq.
  repeat split.
  - simpl. by rewrite Hz.
  - unfold ledger_offset. cbn [db products adjustments set_products].
    rewrite lookup_insert_eq, Hp. simpl. rewrite Hz. simpl. f_equal. lia.
Qed.

(** X3. With the socket server initialised, [createOrder] broadcasts
    exactly one [order:created] event when it answers 201, after the
    events already sent, carrying the new order's id, the caller, the
    order's total, the number of submitted lines and the order's status;
    with any other answer it broadcasts nothing and leaves the world as it
    was. *)
Theorem createOrder_event_once (req : Request OrderBody) (d : Db N)
    (sent : list (Event N)) :
  let w := {| db := d; io := Some sent |} in
  let out := createOrder is_uuid req w in
  (∃ view,
     out.1 = {| code := 201; json := JOrder view |}
     ∧ io out.2
       = Some (sent ++ [OrderCreated (ov_id view) (user req)
                          (totalAmount (ov_order view))
                          (length (items (body req)))
                          (default PENDING (ob_status (body req)))]))
  ∨ (code out.1 ≠ 201 ∧ out.2 = w).
Proof.
  cbn zeta. set (w := {| db := d; io := Some sent |}).
  destruct (createOrder_outcome is_uuid req w)
    as [(Hparse & Hall & Hfirst)|(r & -> & Hr)]; [|by right].
  destruct (createOrder_placed is_uuid req w Hparse Hall Hfirst)
    as (view & w' & -> & Hid & _ & Hstatus & Hrows & _ & _ & _ & _ & _ & Hio).
  left. exists view. split; [done|]. cbn [snd]. rewrite Hio, Hid, Hstatus.
  apply Forall2_length in Hrows. by rewrite <- Hrows.
Qed.


(** X5. An order answered 201 can be read back: [getOrderById] with the id
    of the response, in the world the order left, answers 200 with the
    very same order, rows and product details, and changes nothing. The
    order belongs to the caller and has the status of the request, or
    [PENDING] when the request gave none. *)
Theorem createOrder_then_getOrderById (req : Request OrderBody) (w w' : World N)
    (view : OrderView N) (reader : string) :
  createOrder is_uuid req w = ({| code := 201; json := JOrder view |}, w') →
  getOrderById {| user := reader; param_id := ov_id view; body := tt |} w'
  = ({| code := 200; json := JOrder view |}, w')
  ∧ userId (ov_order view) = user req
  ∧ status (ov_order view) = default PENDING (ob_status (body req)).
Proof.
  intros Hrun.
  destruct (createOrder_outcome is_uuid req w)
    as [(Hparse & Hall & Hfirst)|(r & Hr & Hcode)].
  2:{ rewrite Hr in Hrun. inversion Hrun; subst. done. }
  destruct (createOrder_placed is_uuid req w Hparse Hall Hfirst)
    as (view0 & w0 & Hrun0 & Hid & Huser & Hstatus & _ & _ & Hitems & Hord
        & _ & Hprod & _).
  rewrite Hrun in Hrun0. inversion Hrun0; subst view0 w0. clear Hrun0.
  split; [|done]. unfold getOrderById. cbn [param_id db].
  rewrite Hord, Hid, lookup_insert_eq. do 2 f_equal. f_equal.
  destruct view as [vid vo vitems]. cbn in *. subst vid.
  unfold order_view. f_equal. rewrite Hitems.
  apply map_ext. intros it. f_equal. rewrite Hprod.
  by destruct (products (db w) !! oi_productId it).
Qed.

(** X6. The stock taken by a committed order is the stock its rows show:
    for every product, the stock level after the order is the level before
    minus the sum of the quantities of the order's rows for that product;
    no product row appears or disappears. *)
Theorem createOrder_rows_leave_stock (req : Request OrderBody)
    (w w' : World N) (view : OrderView N) (id : string) :
  createOrder is_uuid req w = ({| code := 201; json := JOrder view |}, w') →
  stockLevel <$> products (db w') !! id
  = (λ p, stockLevel p - rows_quantity id (orderItems (ov_order view)))
      <$> products (db w) !! id.
Proof.
  intros Hrun.
  destruct (createOrder_outcome is_uuid req w)
    as [(Hparse & Hall & Hfirst)|(r & Hr & Hcode)].
  2:{ rewrite Hr in Hrun. inversion Hrun; subst. done. }
  destruct (createOrder_placed is_uuid req w Hparse Hall Hfirst)
    as (view0 & w0 & Hrun0 & _ & _ & _ & Hrows & _ & _ & _ & _ & Hprod & _).
  rewrite Hrun in Hrun0. inversion Hrun0; subst view0 w0. clear Hrun0.
  rewrite Hprod, (rows_quantity_requested _ _ _ _ Hrows).
  by destruct (products (db w) !! id).
Qed.


End LedgerAndEvents.

Section CatalogueLemmas.
Context {N : Type} `{JsNumber N}.

Lemma NoDup_fmap_inj {A B} (f : A → B) (l : list A) x y :
  NoDup (f <$> l) → x ∈ l → y ∈ l → f x = f y → x = y.
Proof.
  induction l as [|a l IH]; intros Hnd Hx Hy Hf.
  - by apply elem_of_nil in Hx.
  - rewrite fmap_cons in Hnd. apply NoDup_cons in Hnd as [Ha Hnd].
    apply elem_of_cons in Hx as [->|Hx]; apply elem_of_cons in Hy as [->|Hy].
    + done.
    + exfalso. apply Ha. rewrite Hf. by apply list_elem_of_fmap_2.
    + exfalso. apply Ha. rewrite <- Hf. by apply list_elem_of_fmap_2.
    + by apply IH.
Qed.

Lemma elem_of_skus (d : Db N) s :
  s ∈ skus d ↔ ∃ id p, products d !! id = Some p ∧ sku p = s.
Proof.
  unfold skus. rewrite list_elem_of_fmap. split.
  - intros ([id p] & -> & Hin). apply elem_of_map_to_list in Hin. eauto.
  - intros (id & p & Hp & <-). exists (id, p). split; [done|].
    by apply elem_of_map_to_list.
Qed.

Lemma sku_unique_alt (d : Db N) :
  sku_unique d
  ↔ ∀ id1 id2 p1 p2,
      products d !! id1 = Some p1 → products d !! id2 = Some p2 →
      sku p1 = sku p2 → id1 = id2.
Proof.
  unfold sku_unique, skus. split.
  - intros Hnd id1 id2 p1 p2 H1 H2 Hsku.
    assert (Heq : (id1, p1) = (id2, p2)); [|by inversion Heq].
    apply (NoDup_fmap_inj (λ row : string * Product N, sku row.2)
             (map_to_list (products d))); try done;
      by apply elem_of_map_to_list.
  - intros Hinj. apply NoDup_fmap_2_strong; [|apply NoDup_map_to_list].
    intros [id1 p1] [id2 p2] H1 H2 Hsku. simpl in Hsku.
    apply elem_of_map_to_list in H1, H2.
    pose proof (Hinj id1 id2 p1 p2 H1 H2 Hsku) as ->. congruence.
Qed.

Lemma product_findUnique_sku_None (d : Db N) s :
  product_findUnique_sku s d = None ↔ s ∉ skus d.
Proof.
  unfold product_findUnique_sku. rewrite elem_of_skus. split.
  - intros Hfind (id & p & Hp & Hs).
    apply elem_of_map_to_list, list_elem_of_In in Hp.
    apply (find_none _ _ Hfind) in Hp. simpl in Hp.
    by apply bool_decide_eq_false in Hp.
  - intros Hnone. destruct (find _ _) as [[id p]|] eqn:Hfind; [|done].
    exfalso. apply find_some in Hfind as [Hin Hs]. simpl in Hs.
    apply bool_decide_eq_true in Hs.
    apply list_elem_of_In, elem_of_map_to_list in Hin. apply Hnone. eauto.
Qed.

(** A store whose rows keep their SKUs keeps them distinct. *)
Lemma sku_unique_same_skus (d d' : Db N) :
  (∀ id, sku <$> products d' !! id = sku <$> products d !! id) →
  sku_unique d → sku_unique d'.
Proof.
  rewrite !sku_unique_alt. intros Hsame Huniq id1 id2 p1 p2 H1 H2 Hsku.
  pose proof (Hsame id1) as E1. pose proof (Hsame id2) as E2.
  rewrite H1 in E1. rewrite H2 in E2.
  destruct (products d !! id1) as [q1|] eqn:Hq1; [|done].
  destruct (products d !! id2) as [q2|] eqn:Hq2; [|done].
  simpl in E1, E2. apply (Huniq id1 id2 q1 q2); congruence.
Qed.

(** A row written under [id] with a SKU no other row has. *)
Lemma sku_unique_insert (d : Db N) id (p : Product N) :
  (∀ id' p', id' ≠ id → products d !! id' = Some p' → sku p' ≠ sku p) →
  sku_unique d → sku_unique (set_products (<[id := p]> (products d)) d).
Proof.
  rewrite !sku_unique_alt. intros Hnew Huniq id1 id2 p1 p2. simpl.
  destruct (decide (id1 = id)) as [->|Hne1];
    destruct (decide (id2 = id)) as [->|Hne2]; [done|..].
  - rewrite lookup_insert_eq, lookup_insert_ne by done.
    intros [= <-] H2 Hsku. exfalso. by apply (Hnew id2 p2).
  - rewrite lookup_insert_eq, lookup_insert_ne by done.
    intros H1 [= <-] Hsku. exfalso. by apply (Hnew id1 p1).
  - rewrite !lookup_insert_ne by done. apply Huniq.
Qed.

Lemma updateProductSchema_parse_sku (b data : ProductPatch N) s :
  updateProductSchema_parse b = Some data →
  pp_sku b = Some s → non_empty s = true.
Proof.
  unfold updateProductSchema_parse.
  destruct (_ && _) eqn:Hok; [|done]. intros _ Hs.
  rewrite !andb_true_iff in Hok.
  destruct Hok as [[[[_ Hsku] _] _] _]. by rewrite Hs in Hsku.
Qed.

(** The successful path of [updateProduct], with what its guards have
    established. *)
Lemma updateProduct_outcome (req : Request (ProductPatch N)) (w : World N) :
  (updateProduct req w).2 = w
  ∨ ∃ p, updateProductSchema_parse (body req) = Some (body req)
         ∧ products (db w) !! param_id req = Some p
         ∧ sku_taken (body req) p (db w) = false
         ∧ (updateProduct req w).2
           = {| db := set_products
                        (<[param_id req := apply_patch (body req) p]>
                           (products (db w))) (db w);
                io := io w |}.
Proof.
  unfold updateProduct.
  destruct (updateProductSchema_parse (body req)) as [data|] eqn:Hparse;
    [|by left].
  pose proof (updateProductSchema_parse_Some _ _ Hparse) as [-> _].
  unfold product_findUnique, product_update.
  destruct (products (db w) !! param_id req) as [p|] eqn:Hp; [|by left].
  destruct (sku_taken _ _ _) eqn:Hsku; [by left|].
  right. by exists p.
Qed.

Lemma updateProduct_sku_unique (req : Request (ProductPatch N)) (w : World N) :
  sku_unique (db w) → sku_unique (db (updateProduct req w).2).
Proof.
  intros Huniq.
  destruct (updateProduct_outcome req w) as [->|(p & Hparse & Hp & Hsku & ->)];
    [done|].
  cbn [db]. apply sku_unique_insert; [|done].
  intros id' p' Hne Hp'. simpl. unfold sku_taken in Hsku.
  destruct (pp_sku (body req)) as [s|] eqn:Hs; simpl.
  - rewrite (updateProductSchema_parse_sku _ _ s Hparse Hs) in Hsku.
    simpl in Hsku. apply andb_false_iff in Hsku as [Hsame|Hfree].
    + apply negb_false_iff, bool_decide_eq_true in Hsame. subst s.
      intros Heq. rewrite sku_unique_alt in Huniq.
      by apply Hne, (Huniq id' (param_id req) p' p).
    + apply bool_decide_eq_false in Hfree.
      assert (Hnone : product_findUnique_sku s (db w) = None).
      { destruct (product_findUnique_sku s (db w)); [|done].
        exfalso. apply Hfree. eauto. }
      apply product_findUnique_sku_None in Hnone. intros Heq.
      apply Hnone, elem_of_skus. eauto.
  - intros Heq. rewrite sku_unique_alt in Huniq.
    by apply Hne, (Huniq id' (param_id req) p' p).
Qed.

Lemma createProductSchema_parse_Some (b : ProductBody N) (data : Product N) :
  createProductSchema_parse b = Some data →
  name data = pb_name b ∧ sku data = pb_sku b
  ∧ description data = pb_description b ∧ price data = pb_price b
  ∧ stockLevel data = default 0 (pb_stockLevel b)
  ∧ lowStockThreshold data = default 10 (pb_lowStockThreshold b)
  ∧ 0 ≤ stockLevel data ∧ 0 ≤ lowStockThreshold data
  ∧ non_empty (pb_name b) = true ∧ non_empty (pb_sku b) = true
  ∧ num_positive (pb_price b) = true.
Proof.
  unfold createProductSchema_parse.
  destruct (_ && _) eqn:Hok; [|done]. intros [= <-]. simpl.
  rewrite !andb_true_iff in Hok.
  destruct Hok as [[[[Hname Hsku] Hprice] Hstock] Hthr].
  repeat split; try done.
  - destruct (pb_stockLevel b); simpl in *; [|done].
    by apply bool_decide_eq_true in Hstock.
  - destruct (pb_lowStockThreshold b); simpl in *; [|done].
    by apply bool_decide_eq_true in Hthr.
Qed.

(** The outcomes of [createProduct]. *)
Lemma createProduct_outcome (req : Request (ProductBody N)) (w : World N) :
  (∃ r, createProduct req w = (r, w) ∧ code r = 400)
  ∨ ∃ data, createProductSchema_parse (body req) = Some data
            ∧ (sku data ∉ skus (db w))
            ∧ createProduct req w
              = ({| code := 201;
                    json := JProduct (new_product_id (db w)) data |},
                 {| db := set_products
                            (<[new_product_id (db w) := data]> (products (db w)))
                            (db w);
                    io := io w |}).
Proof.
  unfold createProduct.
  destruct (createProductSchema_parse (body req)) as [data|] eqn:Hparse.
  2:{ left. by eexists. }
  destruct (product_findUnique_sku (sku data) (db w)) as [row|] eqn:Hfind.
  - left. by eexists.
  - right. exists data. split; [done|].
    split; [by apply product_findUnique_sku_None|done].
Qed.

End CatalogueLemmas.

Section CatalogueAndGate.
Context {N : Type} `{JsNumber N}.
Variable verifyToken : string → option JWTPayload.
Variable is_uuid : string → bool.

(** X8. An [OUT] adjustment that asks for more than the stock holds is
    answered 400 "Insufficient stock" with the current stock level and the
    absolute value of the quantity, and nothing changes: no stock level,
    no adjustment row, no event. *)
Theorem createAdjustment_insufficient_stock (req : Request AdjustmentBody)
    (w : World N) (p : Product N) :
  is_uuid (ab_productId (body req)) = true →
  products (db w) !! ab_productId (body req) = Some p →
  ab_type (body req) = OUT →
  ab_quantity (body req) < 0 →
  stockLevel p < - ab_quantity (body req) →
  createAdjustment is_uuid req w
  = ({| code := 400;
        json := JInsufficientStockAdj (stockLevel p)
                  (- ab_quantity (body req)) |}, w).
Proof.
  intros Huuid Hp Htype Hq Hlt.
  unfold createAdjustment, createAdjustmentSchema_parse, product_findUnique.
  rewrite Huuid, Hp, Htype.
  rewrite (bool_decide_eq_false_2 (OUT = IN)) by done. cbn [andb].
  rewrite (bool_decide_eq_false_2 (0 ≤ ab_quantity (body req))) by lia.
  rewrite andb_false_r.
  rewrite (bool_decide_eq_true_2 (stockLevel p + _ < 0)) by lia.
  rewrite Z.abs_neq by lia. reflexivity.
Qed.

(** X9. A status update keeps no trace of the status before it: updating
    the status of an order and then updating it again gives the response
    and the world of the second update alone. Any status can follow any
    other, and writing the same status twice is the same as writing it
    once. *)
Theorem updateOrderStatus_last_wins (r1 r2 : Request StatusBody)
    (w : World N) :
  param_id r1 = param_id r2 →
  updateOrderStatus r2 (updateOrderStatus r1 w).2 = updateOrderStatus r2 w.
Proof.
  intros Hid. destruct (orders (db w) !! param_id r1) as [o|] eqn:Ho.
  - rewrite (updateOrderStatus_found r1 w o) by done. cbn [snd].
    rewrite (updateOrderStatus_found r2 _ (set_status (sb_status (body r1)) o)).
    2:{ cbn. rewrite Hid. apply lookup_insert_eq. }
    rewrite (updateOrderStatus_found r2 w o) by (by rewrite <- Hid).
    cbn. rewrite Hid, insert_insert_eq. reflexivity.
  - by rewrite (updateOrderStatus_not_found r1 w).
Qed.

Lemma step_catalogue (op : Op N) (w : World N) id :
  not_product_update op →
  catalogue_entry <$> products (db (step is_uuid op w).2) !! id
  = catalogue_entry <$> products (db w) !! id.
Proof.
  intros Hop. destruct op as [req|req|req|req]; simpl; [| | |done].
  - destruct (createOrder_cases is_uuid req w)
      as [->|(Hparse & Hall & Hfirst)]; [done|].
    destruct (createOrder_placed is_uuid req w Hparse Hall Hfirst)
      as (view & w' & -> & _ & _ & _ & _ & _ & _ & _ & _ & Hprod & _).
    cbn [snd]. rewrite Hprod. by destruct (products (db w) !! id).
  - destruct (createAdjustment_cases is_uuid req w)
      as [->|(p & Huuid & Hp & Hsign & Hlevel)]; [done|].
    rewrite (createAdjustment_applied is_uuid req w p) by done.
    cbn [snd db products].
    destruct (decide (ab_productId (body req) = id)) as [<-|Hne].
    + by rewrite lookup_insert_eq, Hp.
    + by rewrite lookup_insert_ne.
  - by destruct (updateOrderStatus_products req w) as [-> _].
Qed.

(** X10. Orders, adjustments and status updates never touch the
    catalogue: along any sequence of them, every product row keeps its
    name, SKU, description, price and low-stock threshold, and no product
    row is added or removed. *)
Theorem core_requests_keep_catalogue (ops : list (Op N)) (w : World N)
    (id : string) :
  Forall not_product_update ops →
  Forall (λ w', catalogue_entry <$> products (db w') !! id
                = catalogue_entry <$> products (db w) !! id)
    (states is_uuid ops w).
Proof.
  intros Hops. revert w.
  induction Hops as [|op rest Hop _ IH]; intros w; simpl; [constructor|].
  pose proof (step_catalogue op w id Hop) as Hstep.
  constructor; [done|].
  eapply Forall_impl; [apply IH|]. intros w' Hw'. cbn beta in *. congruence.
Qed.

Lemma step_admin_adjustments (op : AdminOp N) (w : World N) :
  adjustments (db w) `prefix_of`
    adjustments (db (step_admin is_uuid op w).2).
Proof.
  destruct op as [[req|req|req|req]|req]; simpl.
  - destruct (createOrder_cases is_uuid req w)
      as [->|(Hparse & Hall & Hfirst)]; [done|].
    destruct (createOrder_placed is_uuid req w Hparse Hall Hfirst)
      as (view & w' & -> & _ & _ & _ & _ & _ & _ & _ & Hadj & _).
    cbn [snd]. rewrite Hadj. by eexists.
  - destruct (createAdjustment_cases is_uuid req w)
      as [->|(p & Huuid & Hp & Hsign & Hlevel)]; [done|].
    rewrite (createAdjustment_applied is_uuid req w p) by done.
    cbn. by eexists.
  - by destruct (updateOrderStatus_products req w) as [_ ->].
  - by destruct (updateProduct_cases req w) as [->|(p & _ & _ & ->)].
  - destruct (createProduct_outcome req w) as [(r & -> & _)|(data & _ & _ & ->)];
      done.
Qed.

(** X11. The adjustment log is append-only: along any sequence of
    requests (orders, adjustments, status updates, product updates and
    product creations) the log of each later world starts with the whole
    log of the first one, rows and order unchanged. *)
Theorem adjustments_append_only (ops : list (AdminOp N)) (w : World N) :
  Forall (λ w', adjustments (db w) `prefix_of` adjustments (db w'))
    (states_admin is_uuid ops w).
Proof.
  revert w. induction ops as [|op rest IH]; intros w; simpl; [constructor|].
  pose proof (step_admin_adjustments op w) as Hstep.
  constructor; [done|].
  eapply Forall_impl; [apply IH|]. intros w' Hw'. cbn beta in *.
  by etrans.
Qed.

Lemma step_admin_sku_unique (op : AdminOp N) (w : World N) :
  sku_unique (db w) → sku_unique (db (step_admin is_uuid op w).2).
Proof.
  intros Huniq. destruct op as [[req|req|req|req]|req]; simpl.
  - destruct (createOrder_cases is_uuid req w)
      as [->|(Hparse & Hall & Hfirst)]; [done|].
    destruct (createOrder_placed is_uuid req w Hparse Hall Hfirst)
      as (view & w' & -> & _ & _ & _ & _ & _ & _ & _ & _ & Hprod & _).
    cbn [snd]. apply (sku_unique_same_skus (db w)); [|done].
    intros id. rewrite Hprod. by destruct (products (db w) !! id).
  - destruct (createAdjustment_cases is_uuid req w)
      as [->|(p & Huuid & Hp & Hsign & Hlevel)]; [done|].
    rewrite (createAdjustment_applied is_uuid req w p) by done.
    cbn [snd db]. apply (sku_unique_same_skus (db w)); [|done].
    intros id. cbn [products].
    destruct (decide (ab_productId (body req) = id)) as [<-|Hne].
    + by rewrite lookup_insert_eq, Hp.
    + by rewrite lookup_insert_ne.
  - apply (sku_unique_same_skus (db w)); [|done]. intros id.
    by destruct (updateOrderStatus_products req w) as [-> _].
  - by apply updateProduct_sku_unique.
  - destruct (createProduct_outcome req w)
      as [(r & -> & _)|(data & _ & Hfree & ->)]; [done|].
    cbn [snd db]. apply sku_unique_insert; [|done].
    intros id' p' _ Hp' Heq. apply Hfree, elem_of_skus. eauto.
Qed.

(** X12. The handlers keep SKUs unique by their own checks: starting from
    a store in which no two product rows share a SKU, no sequence of
    product creations, product updates, orders, adjustments and status
    updates leads to a store in which two rows do. *)
Theorem sku_stays_unique (ops : list (AdminOp N)) (w : World N) :
  sku_unique (db w) →
  Forall (λ w', sku_unique (db w')) (states_admin is_uuid ops w).
Proof.
  revert w. induction ops as [|op rest IH]; intros w Huniq; simpl.
  - constructor.
  - pose proof (step_admin_sku_unique op w Huniq) as Hstep.
    constructor; [done|]. by apply IH.
Qed.

(** X13. [createProduct] with a body that passes the schema and a SKU that
    a product row already has is answered 400 "Product with this SKU
    already exists" and changes nothing. *)
Theorem createProduct_duplicate_sku (req : Request (ProductBody N))
    (w : World N) (data : Product N) :
  createProductSchema_parse (body req) = Some data →
  pb_sku (body req) ∈ skus (db w) →
  createProduct req w
  = ({| code := 400; json := JError "Product with this SKU already exists" |},
     w).
Proof.
  intros Hparse Hdup. unfold createProduct. rewrite Hparse.
  apply createProductSchema_parse_Some in Hparse as (_ & Hsku & _).
  destruct (product_findUnique_sku (sku data) (db w)) eqn:Hfind; [done|].
  exfalso. apply product_findUnique_sku_None in Hfind. by rewrite Hsku in Hfind.
Qed.

(** X14. [createProduct] with a body that passes the schema and a SKU no
    product row has is answered 201 with the new row under an id that was
    unused; the row has the body's fields, stock level 0 and low-stock
    threshold 10 where the body gives none, and a stock level of at least
    0; reading the id back finds the row, and every other product row,
    the orders and the adjustment log are as before. *)
Theorem createProduct_created (req : Request (ProductBody N)) (w : World N) :
  is_Some (createProductSchema_parse (body req)) →
  pb_sku (body req) ∉ skus (db w) →
  ∃ id p w',
    createProduct req w = ({| code := 201; json := JProduct id p |}, w')
    ∧ products (db w) !! id = None
    ∧ product_findUnique id (db w') = Some p
    ∧ (∀ id', id' ≠ id → products (db w') !! id' = products (db w) !! id')
    ∧ orders (db w') = orders (db w)
    ∧ adjustments (db w') = adjustments (db w)
    ∧ name p = pb_name (body req) ∧ sku p = pb_sku (body req)
    ∧ price p = pb_price (body req)
    ∧ stockLevel p = default 0 (pb_stockLevel (body req))
    ∧ lowStockThreshold p = default 10 (pb_lowStockThreshold (body req))
    ∧ 0 ≤ stockLevel p.
Proof.
  intros [data Hparse] Hfree.
  pose proof (createProductSchema_parse_Some _ _ Hparse)
    as (Hname & Hsku & _ & Hprice & Hstock & Hthr & Hnonneg & _).
  destruct (createProduct_outcome req w)
    as [(r & Hr & Hcode)|(data' & Hparse' & _ & Hrun)].
  - exfalso. unfold createProduct in Hr. rewrite Hparse in Hr.
    rewrite <- Hsku in Hfree. apply product_findUnique_sku_None in Hfree.
    rewrite Hfree in Hr. cbn in Hr. inversion Hr; subst. done.
  - rewrite Hparse in Hparse'. inversion Hparse'; subst data'.
    eexists _, _, _. split; [exact Hrun|].
    cbn [db products orders adjustments set_products].
    unfold product_findUnique. cbn [products].
    repeat split; try done.
    + apply fresh_string_fresh.
    + apply lookup_insert_eq.
    + intros id' Hne. by rewrite lookup_insert_ne.
Qed.

(** X15. A route guarded by [authenticate] and [authorize] runs its
    handler only for a request whose [Authorization] header starts with
    "Bearer ", whose token (the header after these 7 characters)
    [verifyToken] accepts, and whose role is among the allowed ones; the
    handler then runs with the token's id as the caller, the route's id
    and the body. Every other request is answered 401 or 403 and the world
    is left as it was. *)
Theorem authorized_gate {B} (allowedRoles : list Role)
    (handler : Request B → World N → Response N * World N)
    (r : HttpRequest B) (w : World N) :
  (∃ response, authorized verifyToken allowedRoles handler r w = (response, w)
               ∧ (code response = 401 ∨ code response = 403))
  ∨ ∃ header payload,
      authorization r = Some header
      ∧ String.prefix "Bearer " header = true
      ∧ verifyToken (substring_from 7 header) = Some payload
      ∧ jwt_role payload ∈ allowedRoles
      ∧ authorized verifyToken allowedRoles handler r w
        = handler {| user := jwt_id payload; param_id := route_id r;
                     body := http_body r |} w.
Proof.
  unfold authorized, authenticate, authorize.
  destruct (authorization r) as [header|]; [|left; eexists; eauto].
  destruct (String.prefix "Bearer " header) eqn:Hprefix;
    [|left; eexists; eauto].
  cbn [negb].
  destruct (verifyToken (substring_from 7 header)) as [payload|] eqn:Htoken;
    [|left; eexists; eauto].
  destruct (bool_decide (jwt_role payload ∈ allowedRoles)) eqn:Hrole;
    cbn [negb]; [|left; eexists; eauto].
  apply bool_decide_eq_true in Hrole.
  right. by exists header, payload.
Qed.

Lemma authorized_verified {B} (allowedRoles : list Role)
    (handler : Request B → World N → Response N * World N)
    (r : HttpRequest B) (w : World N) header payload :
  authorization r = Some header →
  String.prefix "Bearer " header = true →
  verifyToken (substring_from 7 header) = Some payload →
  authorized verifyToken allowedRoles handler r w
  = if bool_decide (jwt_role payload ∈ allowedRoles)
    then handler {| user := jwt_id payload; param_id := route_id r;
                    body := http_body r |} w
    else ({| code := 403;
             json := JError "Forbidden: Insufficient permissions" |}, w).
Proof.
  intros Hheader Hprefix Htoken. unfold authorized, authenticate, authorize.
  rewrite Hheader, Hprefix. cbn [negb]. rewrite Htoken.
  by destruct (bool_decide _).
Qed.

(** X16. What a verified [STAFF] token may do: [POST /api/orders] and
    [POST /api/inventory] run [createOrder] and [createAdjustment] with the
    token's id as the caller, while [POST /api/products] and
    [PUT /api/products/:id] are answered 403 "Forbidden: Insufficient
    permissions" and leave the world as it was. *)
Theorem staff_permissions (header : string) (payload : JWTPayload)
    (w : World N) :
  String.prefix "Bearer " header = true →
  verifyToken (substring_from 7 header) = Some payload →
  jwt_role payload = STAFF →
  let forbidden :=
    {| code := 403; json := JError "Forbidden: Insufficient permissions" |} in
  (∀ id (b : OrderBody),
     post_orders verifyToken is_uuid
       {| authorization := Some header; route_id := id; http_body := b |} w
     = createOrder is_uuid
         {| user := jwt_id payload; param_id := id; body := b |} w)
  ∧ (∀ id (b : AdjustmentBody),
       post_inventory verifyToken is_uuid
         {| authorization := Some header; route_id := id; http_body := b |} w
       = createAdjustment is_uuid
           {| user := jwt_id payload; param_id := id; body := b |} w)
  ∧ (∀ id (b : ProductBody N),
       post_products verifyToken
         {| authorization := Some header; route_id := id; http_body := b |} w
       = (forbidden, w))
  ∧ (∀ id (b : ProductPatch N),
       put_product verifyToken
         {| authorization := Some header; route_id := id; http_body := b |} w
       = (forbidden, w)).
Proof.
  intros Hprefix Htoken Hrole. cbn zeta.
  unfold post_orders, post_inventory, post_products, put_product.
  repeat split; intros id b;
    rewrite (authorized_verified _ _ _ _ header payload) by done;
    rewrite Hrole; reflexivity.
Qed.

End CatalogueAndGate.

(** ** The further properties at work in the shop *)


(** A stock count of 50 widgets, with 10 on record. *)
Lemma updateProduct_bypasses_ledger_witness :
  let req := stock_count widget_id 50 in
  ∃ p' w',
    updateProduct req shop
    = ({| code := 200; json := JProduct widget_id p' |}, w')
    ∧ products (db w') !! widget_id = Some p'
    ∧ stockLevel p' = 50
    ∧ adjustments (db w') = adjustments (db shop)
    ∧ ledger_offset widget_id (db w')
      = (λ o, o + (50 - stockLevel widget)) <$> ledger_offset widget_id (db shop).
Proof.
  apply (updateProduct_bypasses_ledger (stock_count widget_id 50) shop
           widget 50); by_evaluation.
Defined.

(** The shop's first order, read back by another user. *)
Lemma createOrder_then_getOrderById_witness :
  getOrderById {| user := "u-2"; param_id := ov_id first_view; body := tt |}
    shop_after_order
  = ({| code := 200; json := JOrder first_view |}, shop_after_order)
  ∧ userId (ov_order first_view) = "u-1"
  ∧ status (ov_order first_view) = PENDING.
Proof.
  apply (createOrder_then_getOrderById uuid_format
           (order_of [(widget_id, 4); (widget_id, 3)]) shop shop_after_order
           first_view "u-2").
  by_evaluation.
Defined.

(** The first order's rows account for the 7 widgets taken. *)
Lemma createOrder_rows_leave_stock_witness :
  stockLevel <$> products (db shop_after_order) !! widget_id
  = (λ p, stockLevel p
          - rows_quantity widget_id (orderItems (ov_order first_view)))
      <$> products (db shop) !! widget_id.
Proof.
  apply (createOrder_rows_leave_stock uuid_format
           (order_of [(widget_id, 4); (widget_id, 3)]) shop shop_after_order
           first_view widget_id).
  by_evaluation.
Defined.

(** Five gadgets withdrawn from a stock of three. *)
Lemma createAdjustment_insufficient_stock_witness :
  createAdjustment uuid_format (adjustment_of gadget_id (-5) OUT "shrinkage")
    shop
  = ({| code := 400; json := JInsufficientStockAdj 3 5 |}, shop).
Proof.
  apply (createAdjustment_insufficient_stock uuid_format
           (adjustment_of gadget_id (-5) OUT "shrinkage") shop gadget);
    by_evaluation.
Defined.

(** The first order cancelled, then completed. *)
Lemma updateOrderStatus_last_wins_witness :
  updateOrderStatus (status_change "order" COMPLETED)
    (updateOrderStatus (status_change "order" CANCELLED) shop_after_order).2
  = updateOrderStatus (status_change "order" COMPLETED) shop_after_order.
Proof.
  apply (updateOrderStatus_last_wins (status_change "order" CANCELLED)
           (status_change "order" COMPLETED) shop_after_order).
  by_evaluation.
Defined.

(** The gadget's catalogue entry through a day of orders and adjustments. *)
Lemma core_requests_keep_catalogue_witness :
  Forall not_product_update a_core_day
  ∧ Forall (λ w', catalogue_entry <$> products (db w') !! gadget_id
                  = catalogue_entry <$> products (db shop) !! gadget_id)
      (states uuid_format a_core_day shop).
Proof.
  assert (Hday : Forall not_product_update a_core_day) by by_evaluation.
  split; [exact Hday|].
  exact (core_requests_keep_catalogue uuid_format a_core_day shop gadget_id
           Hday).
Defined.

(** SKUs stay distinct through the catalogue work of the day. *)
Lemma sku_stays_unique_witness :
  sku_unique (db shop)
  ∧ Forall (λ w', sku_unique (db w'))
      (states_admin uuid_format an_admin_day shop).
Proof.
  assert (Hshop : sku_unique (db shop))
    by (unfold sku_unique; by_evaluation).
  split; [exact Hshop|].
  exact (sku_stays_unique uuid_format an_admin_day shop Hshop).
Defined.

(** A new product under the widget's SKU. *)
Lemma createProduct_duplicate_sku_witness :
  createProduct (new_product "W-1") shop
  = ({| code := 400; json := JError "Product with this SKU already exists" |},
     shop).
Proof.
  apply (createProduct_duplicate_sku (new_product "W-1") shop (gizmo "W-1"));
    by_evaluation.
Defined.

(** A new product under a SKU of its own, with the default levels. *)
Lemma createProduct_created_witness :
  let req := new_product "Z-1" in
  ∃ id p w',
    createProduct req shop = ({| code := 201; json := JProduct id p |}, w')
    ∧ products (db shop) !! id = None
    ∧ product_findUnique id (db w') = Some p
    ∧ (∀ id', id' ≠ id → products (db w') !! id' = products (db shop) !! id')
    ∧ orders (db w') = orders (db shop)
    ∧ adjustments (db w') = adjustments (db shop)
    ∧ name p = "Gizmo" ∧ sku p = "Z-1"
    ∧ price p = 1250
    ∧ stockLevel p = 0
    ∧ lowStockThreshold p = 10
    ∧ 0 ≤ stockLevel p.
Proof.
  apply (createProduct_created (new_product "Z-1") shop); by_evaluation.
Defined.

(** The shop's staff token on the four guarded routes. *)
Lemma staff_permissions_witness :
  let header := "Bearer staff-token" in
  let forbidden :=
    {| code := 403; json := JError "Forbidden: Insufficient permissions" |} in
  (∀ id (b : OrderBody),
     post_orders verify_demo uuid_format
       {| authorization := Some header; route_id := id; http_body := b |} shop
     = createOrder uuid_format
         {| user := "u-1"; param_id := id; body := b |} shop)
  ∧ (∀ id (b : AdjustmentBody),
       post_inventory verify_demo uuid_format
         {| authorization := Some header; route_id := id; http_body := b |}
         shop
       = createAdjustment uuid_format
           {| user := "u-1"; param_id := id; body := b |} shop)
  ∧ (∀ id (b : ProductBody Z),
       post_products verify_demo
         {| authorization := Some header; route_id := id; http_body := b |}
         shop
       = (forbidden, shop))
  ∧ (∀ id (b : ProductPatch Z),
       put_product verify_demo
         {| authorization := Some header; route_id := id; http_body := b |}
         shop
       = (forbidden, shop)).
Proof.
  apply (staff_permissions verify_demo uuid_format "Bearer staff-token" staff
           shop); by_evaluation.
Defined.

Section ReadersAndCreation.
Context {N : Type} `{JsNumber N}.
Variable verifyToken : string → option JWTPayload.
Variable is_uuid : string → bool.

(** X17. [GET /api/orders/:id] never changes the world, and it does not
    look at who asks: two requests for the same id with verified tokens,
    whoever their users and whatever their roles, get the same response,
    also for an order placed by someone else. *)
Theorem get_order_any_reader (r1 r2 : HttpRequest unit) (w : World N)
    (h1 h2 : string) (p1 p2 : JWTPayload) :
  authorization r1 = Some h1 → String.prefix "Bearer " h1 = true →
  verifyToken (substring_from 7 h1) = Some p1 →
  authorization r2 = Some h2 → String.prefix "Bearer " h2 = true →
  verifyToken (substring_from 7 h2) = Some p2 →
  route_id r1 = route_id r2 →
  get_order verifyToken r1 w = get_order verifyToken r2 w
  ∧ (get_order verifyToken r1 w).2 = w.
Proof.
  intros Hh1 Hpre1 Htok1 Hh2 Hpre2 Htok2 Hid.
  unfold get_order, authenticated, authenticate.
  rewrite Hh1, Hh2, Hpre1, Hpre2. cbn [negb]. rewrite Htok1, Htok2.
  unfold getOrderById. cbn [param_id]. rewrite Hid.
  by destruct (orders (db w) !! route_id r2).
Qed.

(** X18. [createAdjustment] answers 201 exactly when the product id is a
    uuid, the product has a row, the sign of the quantity agrees with the
    type (so the quantity is not 0), and the stock level plus the quantity
    is at least 0. *)
Theorem createAdjustment_201_iff (req : Request AdjustmentBody) (w : World N) :
  code (createAdjustment is_uuid req w).1 = 201
  ↔ ∃ p, is_uuid (ab_productId (body req)) = true
         ∧ products (db w) !! ab_productId (body req) = Some p
         ∧ sign_mismatch (body req) = false
         ∧ 0 ≤ stockLevel p + ab_quantity (body req).
Proof.
  split.
  - intros Hcode.
    destruct (createAdjustment_outcome is_uuid req w) as [?|(r & Hr & Hne)];
      [done|].
    rewrite Hr in Hcode. done.
  - intros (p & Huuid & Hp & Hsign & Hlevel).
    by rewrite (createAdjustment_applied is_uuid req w p).
Qed.


End ReadersAndCreation.

(** The first order read with the staff token and with the admin token. *)
Lemma get_order_any_reader_witness :
  let r1 := {| authorization := Some "Bearer staff-token"; route_id := "order";
               http_body := tt |} in
  let r2 := {| authorization := Some "Bearer admin-token"; route_id := "order";
               http_body := tt |} in
  get_order verify_demo r1 shop_after_order
  = get_order verify_demo r2 shop_after_order
  ∧ (get_order verify_demo r1 shop_after_order).2 = shop_after_order.
Proof.
  apply (get_order_any_reader verify_demo _ _ shop_after_order
           "Bearer staff-token" "Bearer admin-token" staff
           {| jwt_id := "u-0"; jwt_email := "admin@shop.test";
              jwt_role := ADMIN |}); by_evaluation.
Defined.


(** ** Sums as binary64 computes them *)

Lemma binary64_round_exact z : Z.abs z ≤ 2 ^ 53 → binary64_round z = z.
Proof. intros Hz. unfold binary64_round. by rewrite bool_decide_eq_true_2. Qed.

(** Within 2^53 in absolute value the sum of line 46 and of line 48 is the
    exact one. *)
Lemma number_add_exact a b :
  Z.abs (a + b) ≤ 2 ^ 53 → number_add a b = Some (a + b).
Proof.
  intros Hab. unfold number_add. rewrite binary64_round_exact by done.
  rewrite bool_decide_eq_true_2; [done|].
  eapply Z.le_lt_trans; [exact Hab|]. by apply Z.pow_lt_mono_r.
Qed.

Lemma Map_get_set k k' v m :
  Map_get k (Map_set k' v m)
  = if decide (k' = k) then Some v else Map_get k m.
Proof.
  induction m as [|[k2 v2] m IH]; simpl.
  - done.
  - destruct (decide (k2 = k')) as [->|Hne]; simpl.
    + by destruct (decide (k' = k)).
    + destruct (decide (k2 = k)) as [->|Hne2].
      * by rewrite decide_False by congruence.
      * done.
Qed.

Lemma productQuantities_binary64_fold (its : list OrderLine)
    (m : list (string * Z)) (c : Z) :
  (∀ k v, Map_get k m = Some v → 0 ≤ v ≤ c) →
  0 ≤ c →
  Forall (λ item, 0 < quantity item) its →
  c + total_quantity its ≤ 2 ^ 53 →
  fold_left
    (λ acc item,
       match acc with
       | None => None
       | Some m =>
           let currentQty := default 0 (Map_get (productId item) m) in
           match number_add currentQty (quantity item) with
           | Some s => Some (Map_set (productId item) s m)
           | None => None
           end
       end)
    its (Some m)
  = Some (fold_left
            (λ m item,
               let currentQty := default 0 (Map_get (productId item) m) in
               Map_set (productId item) (currentQty + quantity item) m)
            its m).
Proof.
  revert m c. induction its as [|item rest IH]; intros m c Hm Hc Hpos Htot.
  - done.
  - apply Forall_cons in Hpos as [Hq Hpos]. cbn [total_quantity] in Htot.
    cbn [fold_left].
    assert (Hcur : 0 ≤ default 0 (Map_get (productId item) m) ≤ c).
    { destruct (Map_get (productId item) m) as [v|] eqn:Hget; simpl.
      - by apply (Hm (productId item)).
      - lia. }
    assert (Hrest : 0 ≤ total_quantity rest).
    { clear -Hpos. induction Hpos; simpl; lia. }
    cbn zeta. rewrite number_add_exact by lia.
    apply (IH _ (c + quantity item)); [|lia|done|lia].
    intros k v. rewrite Map_get_set. case_decide.
    + intros [= <-]. lia.
    + intros Hget. specialize (Hm k v Hget). lia.
Qed.

(** When the quantities of a request are positive and add up to at most
    [Number.MAX_SAFE_INTEGER], the map of lines 43-47 computed in binary64
    is the map computed in [Z]. *)
Lemma productQuantities_binary64_exact (its : list OrderLine) :
  Forall (λ item, 0 < quantity item) its →
  total_quantity its ≤ MAX_SAFE_INTEGER →
  productQuantities_binary64 its = Some (productQuantities its).
Proof.
  intros Hpos Htot. unfold productQuantities_binary64, productQuantities.
  apply (productQuantities_binary64_fold its [] 0); [done|done|done|].
  unfold MAX_SAFE_INTEGER in Htot. lia.
Qed.

Lemma Map_get_productQuantities (its : list OrderLine) id :
  id ∈ map productId its →
  Map_get id (productQuantities its) = Some (requested id its).
Proof.
  intros Hid. rewrite productQuantities_spec.
  apply Map_get_Some.
  - assert (Hkeys : ∀ l : list string,
              (map (λ id, (id, requested id its)) l).*1 = l).
    { induction l as [|x l IHl]; [done|]. cbn [map].
      by rewrite fmap_cons, IHl. }
    rewrite Hkeys. apply Set_spread_NoDup.
  - apply list_elem_of_In, in_map_iff. exists id. split; [done|].
    by apply list_elem_of_In, Set_spread_elem.
Qed.

Section RevisedClaims.
Context {N : Type} `{JsNumber N}.
Variable is_uuid : string → bool.

(** C3, as the code has it. When a request passes the schema, all its
    products exist and its quantities add up to at most
    [Number.MAX_SAFE_INTEGER], and some product's summed quantity exceeds
    its stock level, [createOrder] answers 400 "Insufficient stock"
    carrying the name, the stock level and the summed quantity of the
    first such product in order of first appearance (which is that product
    when it is the only one); the summed quantity is the one lines 43-47
    compute in binary64; and the world is returned as it was: no order,
    item or adjustment row is written, no stock level changes, no event
    is sent. *)
Theorem createOrder_insufficient_stock (req : Request OrderBody) (w : World N)
    (id0 : string) (p0 : Product N) :
  createOrderSchema_parse is_uuid (body req) = Some (body req) →
  all_products_exist (db w) (items (body req)) →
  total_quantity (items (body req)) ≤ MAX_SAFE_INTEGER →
  id0 ∈ map productId (items (body req)) →
  products (db w) !! id0 = Some p0 →
  stockLevel p0 < requested id0 (items (body req)) →
  ∃ id p,
    first_insufficient (db w) (items (body req)) = Some id
    ∧ products (db w) !! id = Some p
    ∧ stockLevel p < requested id (items (body req))
    ∧ (productQuantities_binary64 (items (body req)) ≫= Map_get id)
      = Some (requested id (items (body req)))
    ∧ createOrder is_uuid req w
      = ({| code := 400;
            json := JInsufficientStock (name p) (stockLevel p)
                      (requested id (items (body req))) |}, w)
    ∧ ((∀ id' p', id' ∈ map productId (items (body req)) →
                  products (db w) !! id' = Some p' →
                  stockLevel p' < requested id' (items (body req)) →
                  id' = id0) →
       id = id0).
Proof.
  intros Hparse Hall Htot Hid0 Hp0 Hlt.
  destruct (first_insufficient (db w) (items (body req))) as [id|] eqn:Hfirst.
  2:{ exfalso. rewrite first_insufficient_None in Hfirst.
      specialize (Hfirst id0 p0 Hid0 Hp0). lia. }
  destruct (first_insufficient_Some _ _ _ Hfirst) as (Hid & p & Hp & Hlt').
  exists id, p. repeat split; try done.
  - rewrite productQuantities_binary64_exact; [|..|done].
    + cbn. by apply Map_get_productQuantities.
    + apply createOrderSchema_parse_Some in Hparse as (_ & _ & Hpos).
      apply Forall_forall. intros item Hin. by apply Hpos.
  - by apply createOrder_insufficient.
  - intros Honly. by apply (Honly id p).
Qed.

(** C7, as the code has it. An adjustment request with a uuid product id,
    a sign that agrees with its type, an existing product and a resulting
    level of at least 0 and at most [Number.MAX_SAFE_INTEGER] is answered
    201 with the created adjustment row and [newStockLevel] equal to the
    product's previous stock level plus the signed quantity, which is what
    line 48 computes in binary64; afterwards the product has that stock
    level, exactly one adjustment row, carrying the signed quantity, has
    been appended, and the other products and the orders are as before. *)
Theorem createAdjustment_new_level (req : Request AdjustmentBody)
    (w : World N) (p : Product N) :
  is_uuid (ab_productId (body req)) = true →
  products (db w) !! ab_productId (body req) = Some p →
  sign_mismatch (body req) = false →
  0 ≤ stockLevel p + ab_quantity (body req) →
  stockLevel p + ab_quantity (body req) ≤ MAX_SAFE_INTEGER →
  let b := body req in
  let adj := {| adj_productId := ab_productId b; adj_userId := user req;
                adj_quantity := ab_quantity b; adj_type := ab_type b;
                adj_reason := ab_reason b |} in
  ∃ w',
    createAdjustment is_uuid req w
    = ({| code := 201;
          json := JAdjustment adj (stockLevel p + ab_quantity b) |}, w')
    ∧ newStockLevel_binary64 p b = Some (stockLevel p + ab_quantity b)
    ∧ stockLevel <$> products (db w') !! ab_productId b
      = Some (stockLevel p + ab_quantity b)
    ∧ adjustments (db w') = adjustments (db w) ++ [adj]
    ∧ (∀ id, id ≠ ab_productId b →
             products (db w') !! id = products (db w) !! id)
    ∧ orders (db w') = orders (db w).
Proof.
  intros Huuid Hp Hsign Hlevel Hsafe. cbn zeta.
  eexists. split; [by apply createAdjustment_applied|].
  cbn [db products adjustments orders]. repeat split.
  - unfold newStockLevel_binary64. apply number_add_exact.
    unfold MAX_SAFE_INTEGER in Hsafe. lia.
  - by rewrite lookup_insert_eq.
  - intros id Hne. by rewrite lookup_insert_ne.
Qed.

End RevisedClaims.

(** ** Emission that fails *)

Section Emission.
Context {N : Type} `{JsNumber N}.
Variable is_uuid : string → bool.

Lemma try_emit_with_ok (ev : Event N) (s : Socket N) :
  try_emit_with emit_ok ev s = try_emit ev s.
Proof. unfold try_emit_with, try_emit, emit_ok. by destruct (getIO s). Qed.

(** When [getIO] throws or [io.emit] throws, the guarded block leaves the
    socket handle as it was. *)
Lemma try_emit_with_fails (emit : Emit N) (ev : Event N) (s : Socket N) :
  s = None ∨ (∀ ev sent, emit ev sent = None) →
  try_emit_with emit ev s = s.
Proof.
  unfold try_emit_with, getIO. intros [->|Hthrows]; [done|].
  destruct s as [sent|]; [|done]. by rewrite Hthrows.
Qed.

(** With [io.emit] broadcasting, the generalised handlers are the
    handlers. *)
Lemma createOrder_with_emit_ok (req : Request OrderBody) (w : World N) :
  createOrder_with is_uuid emit_ok req w = createOrder is_uuid req w.
Proof.
  unfold createOrder_with, createOrder.
  destruct (createOrderSchema_parse _ _); [|done].
  destruct (negb _); [done|].
  destruct (check_stock _ _); [done|].
  destruct (orderItemsData _ _ _) as [[total rows]|]; [|done].
  destruct (transaction _ _) as [[view|] d']; [|done].
  by rewrite try_emit_with_ok.
Qed.

Lemma createAdjustment_with_emit_ok (req : Request AdjustmentBody)
    (w : World N) :
  createAdjustment_with is_uuid emit_ok req w = createAdjustment is_uuid req w.
Proof.
  unfold createAdjustment_with, createAdjustment.
  destruct (createAdjustmentSchema_parse _ _); [|done].
  destruct (product_findUnique _ _); [|done].
  destruct (_ && _); [done|]. destruct (_ && _); [done|].
  destruct (bool_decide _); [done|].
  destruct (transaction _ _) as [[[adj up]|] d']; [|done].
  by rewrite try_emit_with_ok.
Qed.

(** The response and the store do not depend on the socket handle or on
    what [io.emit] does; on a failing emission the handle is left as it
    was. *)
Lemma createOrder_with_socket (emit emit' : Emit N) (req : Request OrderBody)
    (d : Db N) (s s' : Socket N) :
  let out := createOrder_with is_uuid emit req {| db := d; io := s |} in
  let out' := createOrder_with is_uuid emit' req {| db := d; io := s' |} in
  out.1 = out'.1 ∧ db out.2 = db out'.2
  ∧ (s = None ∨ (∀ ev sent, emit ev sent = None) → io out.2 = s).
Proof.
  cbn zeta. unfold createOrder_with. cbn [db io].
  destruct (createOrderSchema_parse _ _); [|done].
  destruct (negb _); [done|].
  destruct (check_stock _ _); [done|].
  destruct (orderItemsData _ _ _) as [[total rows]|]; [|done].
  destruct (transaction _ _) as [[view|] d']; [|done].
  cbn. repeat split. apply try_emit_with_fails.
Qed.

Lemma createAdjustment_with_socket (emit emit' : Emit N)
    (req : Request AdjustmentBody) (d : Db N) (s s' : Socket N) :
  let out := createAdjustment_with is_uuid emit req {| db := d; io := s |} in
  let out' := createAdjustment_with is_uuid emit' req {| db := d; io := s' |} in
  out.1 = out'.1 ∧ db out.2 = db out'.2
  ∧ (s = None ∨ (∀ ev sent, emit ev sent = None) → io out.2 = s).
Proof.
  cbn zeta. unfold createAdjustment_with. cbn [db io].
  destruct (createAdjustmentSchema_parse _ _); [|done].
  destruct (product_findUnique _ _); [|done].
  destruct (_ && _); [done|]. destruct (_ && _); [done|].
  destruct (bool_decide _); [done|].
  destruct (transaction _ _) as [[[adj up]|] d']; [|done].
  cbn. repeat split. apply try_emit_with_fails.
Qed.

(** C8. An order or adjustment whose transaction commits is answered 201
    with the committed result whatever happens to the emission that
    follows, and the committed store is the same.
    - If one run of the handler answers 201, then with any socket handle
      and any behaviour of [io.emit] (the server not initialised so that
      [getIO] throws, or [io.emit] throwing, or neither) the handler
      answers 201 with the same body and leaves the same store; when
      [getIO] or [io.emit] throws, the socket handle is left as it was.
    - A request that passes the schema, whose products exist and whose
      stock suffices (sums within [Number.MAX_SAFE_INTEGER]) does commit:
      with any socket handle and any [io.emit] it is answered 201 with
      the order, and the store holds the order, its adjustment rows and
      the decremented stock levels; likewise a valid adjustment on an
      existing product with a resulting level between 0 and
      [Number.MAX_SAFE_INTEGER] is answered 201 with the row and the new
      level, and the store is the committed one. *)
Theorem emission_failure_harmless (d : Db N) :
  (∀ (req : Request OrderBody) (emit0 : Emit N) (s0 : Socket N) response w0,
     createOrder_with is_uuid emit0 req {| db := d; io := s0 |}
     = (response, w0) →
     code response = 201 →
     ∀ (emit : Emit N) (s : Socket N),
     ∃ w, createOrder_with is_uuid emit req {| db := d; io := s |}
          = (response, w)
          ∧ db w = db w0
          ∧ (s = None ∨ (∀ ev sent, emit ev sent = None) → io w = s))
  ∧ (∀ (req : Request AdjustmentBody) (emit0 : Emit N) (s0 : Socket N)
       response w0,
       createAdjustment_with is_uuid emit0 req {| db := d; io := s0 |}
       = (response, w0) →
       code response = 201 →
       ∀ (emit : Emit N) (s : Socket N),
       ∃ w, createAdjustment_with is_uuid emit req {| db := d; io := s |}
            = (response, w)
            ∧ db w = db w0
            ∧ (s = None ∨ (∀ ev sent, emit ev sent = None) → io w = s))
  ∧ (∀ req : Request OrderBody,
       createOrderSchema_parse is_uuid (body req) = Some (body req) →
       all_products_exist d (items (body req)) →
       first_insufficient d (items (body req)) = None →
       total_quantity (items (body req)) ≤ MAX_SAFE_INTEGER →
       ∀ (emit : Emit N) (s : Socket N),
       ∃ view w,
         createOrder_with is_uuid emit req {| db := d; io := s |}
         = ({| code := 201; json := JOrder view |}, w)
         ∧ order_committed req d view (db w))
  ∧ (∀ (req : Request AdjustmentBody) (p : Product N),
       is_uuid (ab_productId (body req)) = true →
       products d !! ab_productId (body req) = Some p →
       sign_mismatch (body req) = false →
       0 ≤ stockLevel p + ab_quantity (body req) →
       stockLevel p + ab_quantity (body req) ≤ MAX_SAFE_INTEGER →
       ∀ (emit : Emit N) (s : Socket N),
       ∃ w,
         createAdjustment_with is_uuid emit req {| db := d; io := s |}
         = ({| code := 201;
               json := JAdjustment (adjustment_row req)
                         (stockLevel p + ab_quantity (body req)) |}, w)
         ∧ db w = adjustment_committed req d p).
Proof.
  split; [|split; [|split]].
  - intros req emit0 s0 response w0 Hrun _ emit s.
    destruct (createOrder_with_socket emit emit0 req d s s0)
      as (Hresp & Hdb & Hio).
    rewrite Hrun in Hresp, Hdb. cbn [fst snd] in Hresp, Hdb.
    exists (createOrder_with is_uuid emit req {| db := d; io := s |}).2.
    split; [|split; [exact Hdb|exact Hio]].
    rewrite <- Hresp. apply surjective_pairing.
  - intros req emit0 s0 response w0 Hrun _ emit s.
    destruct (createAdjustment_with_socket emit emit0 req d s s0)
      as (Hresp & Hdb & Hio).
    rewrite Hrun in Hresp, Hdb. cbn [fst snd] in Hresp, Hdb.
    exists (createAdjustment_with is_uuid emit req {| db := d; io := s |}).2.
    split; [|split; [exact Hdb|exact Hio]].
    rewrite <- Hresp. apply surjective_pairing.
  - intros req Hparse Hall Hfirst _ emit s.
    destruct (createOrder_placed is_uuid req {| db := d; io := s |}
                Hparse Hall Hfirst)
      as (view & w' & Hrun & Hid & Huser & Hstatus & Hrows & Htotal & _
          & Hord & Hadj & Hprod & _).
    destruct (createOrder_with_socket emit emit_ok req d s s)
      as (Hresp & Hdb & _).
    rewrite createOrder_with_emit_ok, Hrun in Hresp, Hdb.
    cbn [fst snd] in Hresp, Hdb.
    exists view,
      (createOrder_with is_uuid emit req {| db := d; io := s |}).2.
    split.
    + rewrite <- Hresp. apply surjective_pairing.
    + unfold order_committed. rewrite Hdb. cbn [db] in *.
      rewrite Hid. by repeat split.
  - intros req p Huuid Hp Hsign Hlevel _ emit s.
    destruct (createAdjustment_with_socket emit emit_ok req d s s)
      as (Hresp & Hdb & _).
    rewrite createAdjustment_with_emit_ok in Hresp, Hdb.
    rewrite (createAdjustment_applied is_uuid req {| db := d; io := s |} p)
      in Hresp, Hdb by done.
    cbn [fst snd db] in Hresp, Hdb.
    exists (createAdjustment_with is_uuid emit req {| db := d; io := s |}).2.
    unfold adjustment_committed, adjustment_row. split; [|exact Hdb].
    rewrite <- Hresp. apply surjective_pairing.
Qed.

End Emission.

(** ** The revised statements at work in the shop *)

(** 6 + 5 widgets against 10 in stock, with a gadget line in between. *)
Lemma createOrder_insufficient_stock_witness :
  let req := order_of [(widget_id, 6); (gadget_id, 1); (widget_id, 5)] in
  ∃ id p,
    first_insufficient (db shop) (items (body req)) = Some id
    ∧ products (db shop) !! id = Some p
    ∧ stockLevel p < requested id (items (body req))
    ∧ (productQuantities_binary64 (items (body req)) ≫= Map_get id)
      = Some (requested id (items (body req)))
    ∧ createOrder uuid_format req shop
      = ({| code := 400;
            json := JInsufficientStock (name p) (stockLevel p)
                      (requested id (items (body req))) |}, shop)
    ∧ ((∀ id' p', id' ∈ map productId (items (body req)) →
                  products (db shop) !! id' = Some p' →
                  stockLevel p' < requested id' (items (body req)) →
                  id' = widget_id) →
       id = widget_id).
Proof.
  apply (createOrder_insufficient_stock uuid_format
           (order_of [(widget_id, 6); (gadget_id, 1); (widget_id, 5)])
           shop widget_id widget); by_evaluation.
Defined.

(** C3 as stated fails, in three ways.
    - 100 widgets against 10 in stock, in a request that also names a
      product without a row: the answer is the 404 of the resolution, not
      the 400 of the stock check.
    - 11 widgets against 10 and 4 gadgets against 3: the gadgets exceed
      their stock too, and the response carries the widget's figures, not
      theirs.
    - Lines of 2^53 and 1 for one product: lines 43-47 sum them to 2^53 in
      binary64, one less than the quantity requested. *)
Lemma createOrder_insufficient_stock_unreported :
  let mixed := order_of [(widget_id, 100); (ghost_id, 1)] in
  let both := order_of [(widget_id, 11); (gadget_id, 4)] in
  let large := order_of [(widget_id, 9007199254740992); (widget_id, 1)] in
  (createOrderSchema_parse uuid_format (body mixed) = Some (body mixed)
   ∧ products (db shop) !! widget_id = Some widget
   ∧ stockLevel widget < requested widget_id (items (body mixed))
   ∧ createOrder uuid_format mixed shop
     = ({| code := 404; json := JError "One or more products not found" |},
        shop))
  ∧ (products (db shop) !! gadget_id = Some gadget
     ∧ stockLevel gadget < requested gadget_id (items (body both))
     ∧ createOrder uuid_format both shop
       = ({| code := 400; json := JInsufficientStock "Widget" 10 11 |}, shop))
  ∧ (createOrderSchema_parse uuid_format (body large) = Some (body large)
     ∧ requested widget_id (items (body large)) = 9007199254740993
     ∧ productQuantities_binary64 (items (body large))
       = Some [(widget_id, 9007199254740992)]).
Proof. repeat split; by_evaluation. Qed.

(** 20 gadgets received on a stock of 3. *)
Lemma createAdjustment_new_level_witness :
  let req := adjustment_of gadget_id 20 IN "restock" in
  let adj := {| adj_productId := gadget_id; adj_userId := "u-1";
                adj_quantity := 20; adj_type := IN;
                adj_reason := Some "restock" |} in
  ∃ w',
    createAdjustment uuid_format req shop
    = ({| code := 201; json := JAdjustment adj 23 |}, w')
    ∧ newStockLevel_binary64 gadget (body req) = Some 23
    ∧ stockLevel <$> products (db w') !! gadget_id = Some 23
    ∧ adjustments (db w') = adjustments (db shop) ++ [adj]
    ∧ (∀ id, id ≠ gadget_id →
             products (db w') !! id = products (db shop) !! id)
    ∧ orders (db w') = orders (db shop).
Proof.
  apply (createAdjustment_new_level uuid_format
           (adjustment_of gadget_id 20 IN "restock") shop gadget);
    by_evaluation.
Defined.

(** C7 as stated fails. 2^53 - 1 widgets received on a stock of 10: the
    request is valid and the resulting level is not negative, and line 48
    computes 9007199254741000 in binary64, one less than the previous
    level plus the quantity. *)
Lemma createAdjustment_level_rounds :
  let req := huge_delivery in
  uuid_format (ab_productId (body req)) = true
  ∧ products (db shop) !! ab_productId (body req) = Some widget
  ∧ sign_mismatch (body req) = false
  ∧ 0 ≤ stockLevel widget + ab_quantity (body req)
  ∧ stockLevel widget + ab_quantity (body req) = 9007199254741001
  ∧ newStockLevel_binary64 widget (body req) = Some 9007199254741000.
Proof. repeat split; by_evaluation. Qed.

(** The first order and the restock with an [io.emit] that throws, then
    with a server that is not initialised. *)
Lemma emission_failure_harmless_witness :
  let order := order_of [(widget_id, 4); (widget_id, 3)] in
  let restock := adjustment_of gadget_id 20 IN "restock" in
  (∃ view w,
     createOrder_with uuid_format emit_throws order
       {| db := db shop; io := Some [] |}
     = ({| code := 201; json := JOrder view |}, w)
     ∧ order_committed order (db shop) view (db w))
  ∧ (∃ w,
       createAdjustment_with uuid_format emit_ok restock
         {| db := db shop; io := None |}
       = ({| code := 201; json := JAdjustment (adjustment_row restock) 23 |},
          w)
       ∧ db w = adjustment_committed restock (db shop) gadget).
Proof.
  split.
  - apply (proj1 (proj2 (proj2 (emission_failure_harmless uuid_format
                                  (db shop))))
             (order_of [(widget_id, 4); (widget_id, 3)]));
      by_evaluation.
  - apply (proj2 (proj2 (proj2 (emission_failure_harmless uuid_format
                                  (db shop))))
             (adjustment_of gadget_id 20 IN "restock") gadget);
      by_evaluation.
Defined.
